(** * Gigradar webhook → HubSpot integration: a shallow embedding

    The development follows the three source files of the [integrations]
    application:

    - [integrations/models.py]   — the [GigradarProposal] table and
      [create_from_webhook_data] (module [Models]);
    - [integrations/services.py] — [HubSpotService] (module [Services]);
    - [integrations/views.py]    — [GigradarWebhookView] (module [Views]).

    Python values are dynamically typed, so payloads are terms of one
    inductive type [value]; dictionaries are finite maps with string keys.
    Exceptions are values of type [exn] and every effectful function is a
    computation in the monad [M], which threads the [world]: the proposal
    table, the wall clock, the trace of calls made to the CRM and the log.

    What lies outside the repository is taken as a parameter:
    the language runtime and the framework helpers ([runtime]), the remote
    CRM reached through its SDK ([HubSpot]) and the process environment
    ([environ]).  The storage engine is taken to accept every row it is
    handed; rows are identified by their position in the table (the primary
    key), and rows are never deleted.  Text is modelled as byte strings:
    case mapping and slicing act on ASCII characters. *)

From Stdlib Require Import ZArith Floats Ascii String.
From stdpp Require Import gmap strings pretty list fin_maps.

Set Warnings "-register-all".
Set Default Proof Using "Type".

(* ===================================================================== *)
(** ** Python values *)
(* ===================================================================== *)

Module Py.

(** [datetime.datetime]: the fields of the object; [utcoffset] is [None]
    for a naive value, otherwise the offset in minutes. *)
Record datetime := {
  year : Z; month : Z; day : Z;
  hour : Z; minute : Z; second : Z; microsecond : Z;
  utcoffset : option Z
}.

(** What [json.loads] can produce, plus [datetime] objects, which model
    attributes may hold. *)
Inductive value :=
| VNone
| VBool (b : bool)
| VInt (n : Z)
| VFloat (f : float)
| VStr (s : string)
| VList (l : list value)
| VDict (d : gmap string value)
| VDatetime (t : datetime).

(** [bool(v)]: the truth value Python gives to [v]. *)
Definition truthy (v : value) : bool :=
  match v with
  | VNone => false
  | VBool b => b
  | VInt n => negb (n =? 0)%Z
  | VFloat f => negb (PrimFloat.eqb f 0%float)
  | VStr s => negb (String.eqb s "")
  | VList l => match l with [] => false | _ :: _ => true end
  | VDict d => negb (bool_decide (d = ∅))
  | VDatetime _ => true
  end.

(** [type(v).__name__], as it appears in error messages. *)
Definition type_name (v : value) : string :=
  match v with
  | VNone => "NoneType"
  | VBool _ => "bool"
  | VInt _ => "int"
  | VFloat _ => "float"
  | VStr _ => "str"
  | VList _ => "list"
  | VDict _ => "dict"
  | VDatetime _ => "datetime.datetime"
  end.

(** [a or b]: the first operand when it is truthy, else the second. *)
Definition py_or (a b : value) : value := if truthy a then a else b.

(** [d.get(k)] and [d.get(k, dflt)] on a dictionary. *)
Definition get (d : gmap string value) (k : string) : value :=
  default VNone (d !! k).
Definition get_default (d : gmap string value) (k : string) (dflt : value) : value :=
  default dflt (d !! k).

(** [k in d]. *)
Definition contains (d : gmap string value) (k : string) : bool :=
  bool_decide (is_Some (d !! k)).

(** Truth value of an optional string ([None] and [""] are falsy). *)
Definition truthy_str (o : option string) : bool :=
  match o with
  | Some s => negb (String.eqb s "")
  | None => false
  end.

(** Exceptions, by class.  [JSONDecodeError] is a subclass of
    [ValueError]; the two [ApiException] classes of the SDK (contacts and
    deals) are unrelated; [Exception] stands for any other subclass of
    [Exception]. *)
Inductive exn :=
| ValueError (msg : string)
| JSONDecodeError (msg : string)
| AttributeError (msg : string)
| TypeError (msg : string)
| ContactApiException (status : Z) (msg : string)
| DealApiException (status : Z) (msg : string)
| Exception (msg : string).

(** The [AttributeError] raised by [v.attr]. *)
Definition no_attribute (v : value) (attr : string) : exn :=
  AttributeError ("'" ++ type_name v ++ "' object has no attribute '"
                  ++ attr ++ "'").

(** [str(e)]. *)
Definition str_exn (e : exn) : string :=
  match e with
  | ValueError m | JSONDecodeError m | AttributeError m | TypeError m
  | ContactApiException _ m | DealApiException _ m | Exception m => m
  end.

(** [isinstance(e, ValueError)]. *)
Definition is_ValueError (e : exn) : bool :=
  match e with
  | ValueError _ | JSONDecodeError _ => true
  | _ => false
  end.

Inductive result (A : Type) :=
| Ok (a : A)
| Raise (e : exn).
Arguments Ok {A} a.
Arguments Raise {A} e.

(** The language runtime and framework helpers the code calls:
    [str(x)], [float(x)] ([None] when it raises),
    [django.utils.dateparse.parse_datetime] (a [datetime], [None], or an
    exception), [json.loads] and [datetime.isoformat]. *)
Record runtime := {
  py_str : value → string;
  py_float : value → option float;
  parse_datetime : string → result (option datetime);
  json_loads : string → result value;
  isoformat : datetime → string
}.

(** [str(x)] and f-string interpolation: a [str] is itself. *)
Definition str (rt : runtime) (v : value) : string :=
  match v with
  | VStr s => s
  | _ => py_str rt v
  end.

(** [s.lower()] on ASCII text. *)
Definition lower_char (c : ascii) : ascii :=
  let n := nat_of_ascii c in
  if (65 <=? n)%nat && (n <=? 90)%nat then ascii_of_nat (n + 32) else c.
Fixpoint lower (s : string) : string :=
  match s with
  | EmptyString => EmptyString
  | String c s' => String (lower_char c) (lower s')
  end.

(** [s.replace(a, b)] for one-character [a] and [b]. *)
Fixpoint replace (a b : ascii) (s : string) : string :=
  match s with
  | EmptyString => EmptyString
  | String c s' => String (if Ascii.eqb c a then b else c) (replace a b s')
  end.

(** [s.startswith(p)]. *)
Definition startswith (p s : string) : bool := String.prefix p s.

End Py.
Export Py.

Notation "a ||| b" := (py_or a b) (at level 50, left associativity).
Abbreviation dict := (gmap string value).

(* ===================================================================== *)
(** ** The proposal table, the world and the effect monad *)
(* ===================================================================== *)

(** A row of [GigradarProposal] (models.py, lines 11-51).  [proposal_id]
    is the text of the unique column; the other attributes hold whatever
    Python value was assigned to them.  [created] and [updated] are set by
    the ORM ([auto_now_add], [auto_now]). *)
Record GigradarProposal := {
  proposal_id : string;
  opportunity_id : value;
  job_id : value;
  status : value;
  sent_at : value;
  scheduled_at : value;
  created_at : value;
  has_error : value;
  error_code : value;
  error_message : value;
  scanner_id : value;
  scanner_name : value;
  team_id : value;
  team_name : value;
  job_title : value;
  job_budget : value;
  job_type : value;
  client_email : value;
  client_name : value;
  client_company : value;
  hubspot_contact_id : value;
  hubspot_deal_id : value;
  raw_data : value;
  created : datetime;
  updated : datetime
}.

(** Requests sent to the CRM through the SDK (services.py). *)
Inductive api_call :=
| ContactsCreate (properties : dict)
| ContactsSearch (email : value)
| DealsCreate (properties : dict)
| AssociationsCreate (contact_id deal_id : string).

(** The remote CRM as seen through [self.client]: each endpoint answers
    from the history of the calls made so far and the current request,
    with an object id (or a result list) or by raising. *)
Record HubSpot := {
  contacts_basic_api_create : list api_call → dict → result string;
  contacts_search_api_do_search : list api_call → value → result (list string);
  deals_basic_api_create : list api_call → dict → result string;
  associations_batch_api_create : list api_call → string → string → result unit
}.

(** [os.getenv] of the four variables the code reads. *)
Record environ := {
  WEBHOOK_TOKEN : option string;
  WEBHOOK_USERNAME : option string;
  WEBHOOK_PASSWORD : option string;
  HUBSPOT_ACCESS_TOKEN : option string
}.

Inductive level := INFO | WARNING | ERROR.

Record world := {
  db : list GigradarProposal;      (* the table, indexed by primary key *)
  clock : datetime;                (* timezone.now() *)
  calls : list api_call;           (* requests sent to the CRM, oldest first *)
  log : list (level * string)      (* records emitted through [logger] *)
}.

Definition set_db (rows : list GigradarProposal) (w : world) : world :=
  {| db := rows; clock := clock w; calls := calls w; log := log w |}.
Definition set_clock (t : datetime) (w : world) : world :=
  {| db := db w; clock := t; calls := calls w; log := log w |}.
Definition add_call (c : api_call) (w : world) : world :=
  {| db := db w; clock := clock w; calls := calls w ++ [c]; log := log w |}.
Definition add_log (r : level * string) (w : world) : world :=
  {| db := db w; clock := clock w; calls := calls w; log := log w ++ [r] |}.

Module Eff.

(** A computation returns a value or raises, and leaves a world. *)
Definition M (A : Type) : Type := world → result A * world.

Definition ret {A} (a : A) : M A := λ w, (Ok a, w).
Definition raise {A} (e : exn) : M A := λ w, (Raise e, w).
Definition bind {A B} (m : M A) (k : A → M B) : M B :=
  λ w, match m w with
       | (Ok a, w') => k a w'
       | (Raise e, w') => (Raise e, w')
       end.

(** [try: m except ...: h e]: [h e = None] when no clause matches [e],
    which then propagates. *)
Definition try_except {A} (m : M A) (h : exn → option (M A)) : M A :=
  λ w, match m w with
       | (Ok a, w') => (Ok a, w')
       | (Raise e, w') =>
           match h e with
           | Some k => k w'
           | None => (Raise e, w')
           end
       end.

(** Lift a pure fallible expression. *)
Definition lift {A} (r : result A) : M A := λ w, (r, w).

Definition logger (l : level) (msg : string) : M unit :=
  λ w, (Ok tt, add_log (l, msg) w).

End Eff.
Export Eff.

Notation "'let!' x ':=' m 'in' k" := (bind m (λ x, k))
  (at level 10, x pattern, m at level 100, k at level 200).
Notation "m ';;' k" := (bind m (λ _, k))
  (at level 100, k at level 200, right associativity).

(** [x.get(k, dflt)] on an arbitrary object: only a dictionary has [get]. *)
Definition attr_get (x : value) (k : string) (dflt : value) : result value :=
  match x with
  | VDict d => Ok (get_default d k dflt)
  | _ => Raise (no_attribute x "get")
  end.

(* ===================================================================== *)
(** ** integrations/models.py *)
(* ===================================================================== *)

Module Models.
Section Models.
Context (rt : runtime).

(** The text a [CharField] column holds for an attribute value: a [str]
    as it is, anything else through [str()]. *)
Definition charfield_text (v : value) : string := str rt v.

(** The row [get_or_create] inserts when no row has the identifier: only
    [proposal_id] is given ([defaults={}]), the other columns take their
    declared defaults. *)
Definition new_row (key : string) (now : datetime) : GigradarProposal :=
  {| proposal_id := key;
     opportunity_id := VStr "";
     job_id := VNone;
     status := VNone;
     sent_at := VNone;
     scheduled_at := VNone;
     created_at := VNone;
     has_error := VBool false;
     error_code := VNone;
     error_message := VNone;
     scanner_id := VNone;
     scanner_name := VNone;
     team_id := VNone;
     team_name := VNone;
     job_title := VNone;
     job_budget := VNone;
     job_type := VNone;
     client_email := VNone;
     client_name := VNone;
     client_company := VNone;
     hubspot_contact_id := VNone;
     hubspot_deal_id := VNone;
     raw_data := VDict ∅;
     created := now;
     updated := now |}.

(** [cls.objects.get_or_create(proposal_id=key, defaults={})]: the primary
    key, the instance, and whether it was created.  The column is unique,
    so the first row with the identifier is the only one. *)
Definition get_or_create (key : string) : M (nat * GigradarProposal * bool) :=
  λ w, match list_find (λ p, proposal_id p = key) (db w) with
       | Some (pk, p) => (Ok (pk, p, false), w)
       | None =>
           let p := new_row key (clock w) in
           (Ok (length (db w), p, true), set_db (db w ++ [p]) w)
       end.

(** [auto_now]: the value [save()] gives to [updated]. *)
Definition touch (now : datetime) (p : GigradarProposal) : GigradarProposal :=
  {| proposal_id := proposal_id p;
     opportunity_id := opportunity_id p;
     job_id := job_id p;
     status := status p;
     sent_at := sent_at p;
     scheduled_at := scheduled_at p;
     created_at := created_at p;
     has_error := has_error p;
     error_code := error_code p;
     error_message := error_message p;
     scanner_id := scanner_id p;
     scanner_name := scanner_name p;
     team_id := team_id p;
     team_name := team_name p;
     job_title := job_title p;
     job_budget := job_budget p;
     job_type := job_type p;
     client_email := client_email p;
     client_name := client_name p;
     client_company := client_company p;
     hubspot_contact_id := hubspot_contact_id p;
     hubspot_deal_id := hubspot_deal_id p;
     raw_data := raw_data p;
     created := created p;
     updated := now |}.

(** [proposal.save()] of the instance with primary key [pk]. *)
Definition save (pk : nat) (p : GigradarProposal) : M GigradarProposal :=
  λ w, let p' := touch (clock w) p in
       (Ok p', set_db (<[pk := p']> (db w)) w).

(** Lines 97-101 (and 104-108, 111-116): [parse_datetime(x) if
    isinstance(x, str) else x] under [try ... except: pass]; [old] is the
    attribute's value before the assignment. *)
Definition assign_datetime (x old : value) : value :=
  match x with
  | VStr s =>
      match parse_datetime rt s with
      | Ok (Some t) => VDatetime t
      | Ok None => VNone
      | Raise _ => old
      end
  | _ => x
  end.

(** Lines 134-138: [if budget: try: ... = float(budget) except: pass]. *)
Definition assign_budget (budget old : value) : value :=
  if truthy budget then
    match py_float rt budget with
    | Some f => VFloat f
    | None => old
    end
  else old.

(** Lines 91-154: the assignments made on the instance [p] from [data],
    attribute by attribute.  Every attribute is assigned at most once and
    every right-hand side reads [data] only. *)
Definition assign_fields (data : dict) (p : GigradarProposal) : GigradarProposal :=
  let job := get_default data "job" (VDict ∅) in
  {| proposal_id := proposal_id p;
     opportunity_id :=
       get data "opportunityId" ||| get data "opportunity_id" ||| VStr "";
     job_id := get data "jobId" ||| get data "job_id" ||| VStr "";
     status := status p;
     sent_at :=
       if contains data "sent"
       then assign_datetime (get data "sent") (sent_at p)
       else sent_at p;
     scheduled_at :=
       if contains data "scheduledAt"
       then assign_datetime (get data "scheduledAt") (scheduled_at p)
       else scheduled_at p;
     created_at :=
       if contains data "createdAt" || contains data "created_at"
       then assign_datetime (get data "createdAt" ||| get data "created_at")
              (created_at p)
       else created_at p;
     has_error :=
       get_default data "error" (VBool false)
       ||| get_default data "hasError" (VBool false);
     error_code := get data "errorCode" ||| get data "error_code";
     error_message := get data "errorMessage" ||| get data "error_message";
     scanner_id := get data "scannerId" ||| get data "scanner_id";
     scanner_name := get data "scannerName" ||| get data "scanner_name";
     team_id := get data "teamId" ||| get data "team_id";
     team_name := get data "teamName" ||| get data "team_name";
     job_title :=
       match job with
       | VDict job => get job "title" ||| get job "jobTitle"
       | _ => job_title p
       end;
     job_budget :=
       match job with
       | VDict job =>
           assign_budget
             (get job "budget" ||| get job "hourlyRate" ||| get job "fixedPrice")
             (job_budget p)
       | _ => job_budget p
       end;
     job_type :=
       match job with
       | VDict job => get job "type" ||| get job "jobType"
       | _ => job_type p
       end;
     client_email :=
       match job with
       | VDict job =>
           match get_default job "client" (VDict ∅) with
           | VDict client => get client "email"
           | _ => get job "clientEmail"
           end
       | _ => client_email p
       end;
     client_name :=
       match job with
       | VDict job =>
           match get_default job "client" (VDict ∅) with
           | VDict client => get client "name"
           | _ => get job "clientName"
           end
       | _ => client_name p
       end;
     client_company :=
       match job with
       | VDict job =>
           match get_default job "client" (VDict ∅) with
           | VDict client => get client "company"
           | _ => get job "companyName"
           end
       | _ => client_company p
       end;
     hubspot_contact_id := hubspot_contact_id p;
     hubspot_deal_id := hubspot_deal_id p;
     raw_data := VDict data;
     created := created p;
     updated := updated p |}.

(** Line 81: the identifier, from the first truthy of three keys. *)
Definition extract_proposal_id (data : dict) : value :=
  get data "id" ||| get data "proposalId" ||| get data "_id".

(** [GigradarProposal.create_from_webhook_data(data)], lines 69-157. *)
Definition create_from_webhook_data (data : value) : M GigradarProposal :=
  match data with
  | VDict data =>
      let proposal_id := extract_proposal_id data in
      if negb (truthy proposal_id) then
        raise (ValueError "Proposal ID не знайдено в даних")
      else
        let! (pk, proposal, _) := get_or_create (charfield_text proposal_id) in
        save pk (assign_fields data proposal)
  | _ => raise (no_attribute data "get")
  end.

End Models.
End Models.

(* ===================================================================== *)
(** ** integrations/services.py *)
(* ===================================================================== *)

Module Services.

(** The result document of [process_gigradar_opportunity]. *)
Record opportunity_result := {
  success : bool;
  contact_id : option string;
  deal_id : option string;
  errors : list string
}.

Definition set_contact_id (c : option string) (r : opportunity_result) :=
  {| success := success r; contact_id := c; deal_id := deal_id r;
     errors := errors r |}.
(** Lines 244-245: [deal_id] and [success = bool(deal_id)]. *)
Definition set_deal_id (d : option string) (r : opportunity_result) :=
  {| success := truthy_str d; contact_id := contact_id r; deal_id := d;
     errors := errors r |}.
Definition append_error (msg : string) (r : opportunity_result) :=
  {| success := success r; contact_id := contact_id r; deal_id := deal_id r;
     errors := errors r ++ [msg] |}.

Section Services.
Context (rt : runtime) (client : HubSpot).

(** The four SDK calls: the request is recorded in the trace and the
    CRM's answer returned (or raised). *)
Definition contacts_create (properties : dict) : M string :=
  λ w, (contacts_basic_api_create client (calls w) properties,
        add_call (ContactsCreate properties) w).
Definition contacts_do_search (email : value) : M (list string) :=
  λ w, (contacts_search_api_do_search client (calls w) email,
        add_call (ContactsSearch email) w).
Definition deals_create (properties : dict) : M string :=
  λ w, (deals_basic_api_create client (calls w) properties,
        add_call (DealsCreate properties) w).
Definition associations_create (contact deal : string) : M unit :=
  λ w, (associations_batch_api_create client (calls w) contact deal,
        add_call (AssociationsCreate contact deal) w).

(** [HubSpotService.__init__], lines 19-30: the access token in use. *)
Definition HubSpotService_init (access_token : option string) (env : environ)
  : M string :=
  let access_token :=
    if truthy_str access_token then access_token else HUBSPOT_ACCESS_TOKEN env in
  if negb (truthy_str access_token) then
    raise (ValueError "HUBSPOT_ACCESS_TOKEN не вказано в змінних оточення")
  else ret (default "" access_token).

(** [if v: properties[k] = v]. *)
Definition set_if (k : string) (v : value) (properties : dict) : dict :=
  if truthy v then <[k := v]> properties else properties.

(** [_find_contact_by_email], lines 80-107. *)
Definition _find_contact_by_email (email : value) : M (option string) :=
  try_except
    (let! results := contacts_do_search email in
     ret (head results))
    (λ e, Some (logger ERROR ("Помилка пошуку контакту: " ++ str_exn e) ;;
                ret None)).

(** Lines 50-62: the properties sent for a contact. *)
Definition contact_properties (email firstname lastname phone company : value)
    (kwargs : dict) : dict :=
  let properties : dict := {["email" := email]} in
  let properties := set_if "firstname" firstname properties in
  let properties := set_if "lastname" lastname properties in
  let properties := set_if "phone" phone properties in
  let properties := set_if "company" company properties in
  kwargs ∪ properties.

(** [create_contact], lines 32-78. *)
Definition create_contact (email firstname lastname phone company : value)
    (kwargs : dict) : M (option string) :=
  try_except
    (let properties :=
       contact_properties email firstname lastname phone company kwargs in
     let! contact := contacts_create properties in
     logger INFO ("Контакт створено в HubSpot: " ++ contact ++ ", email: "
                  ++ str rt email) ;;
     ret (Some contact))
    (λ e, match e with
          | ContactApiException status _ =>
              Some (logger ERROR ("Помилка створення контакту в HubSpot: "
                                  ++ str_exn e) ;;
                    if (status =? 409)%Z then
                      logger INFO ("Контакт з email " ++ str rt email
                                   ++ " вже існує") ;;
                      _find_contact_by_email email
                    else ret None)
          | _ => None
          end).

(** [_associate_deal_to_contact], lines 160-184. *)
Definition _associate_deal_to_contact (deal contact : string) : M unit :=
  try_except
    (associations_create contact deal ;;
     logger INFO ("Deal " ++ deal ++ " асоційовано з контактом " ++ contact))
    (λ e, Some (logger ERROR ("Помилка асоціації deal з контактом: "
                              ++ str_exn e))).

(** Lines 129-141: the properties sent for a deal. *)
Definition deal_properties (dealname amount closedate dealstage pipeline : value)
    (kwargs : dict) : dict :=
  let properties : dict := {["dealname" := dealname]} in
  let properties :=
    if truthy amount then <["amount" := VStr (str rt amount)]> properties
    else properties in
  let properties := set_if "closedate" closedate properties in
  let properties := set_if "dealstage" dealstage properties in
  let properties := set_if "pipeline" pipeline properties in
  kwargs ∪ properties.

(** [create_deal], lines 109-158. *)
Definition create_deal (dealname amount closedate dealstage pipeline : value)
    (contact : option string) (kwargs : dict) : M (option string) :=
  try_except
    (let properties :=
       deal_properties dealname amount closedate dealstage pipeline kwargs in
     let! deal := deals_create properties in
     logger INFO ("Deal створено в HubSpot: " ++ deal ++ ", назва: "
                  ++ str rt dealname) ;;
     (if truthy_str contact
      then _associate_deal_to_contact deal (default "" contact)
      else ret tt) ;;
     ret (Some deal))
    (λ e, match e with
          | DealApiException _ _ =>
              Some (logger ERROR ("Помилка створення deal в HubSpot: "
                                  ++ str_exn e) ;;
                    ret None)
          | _ => None
          end).

(** [x.get(k, dflt)] as a step of a computation. *)
Definition getattr_get (x : value) (k : string) (dflt : value) : M value :=
  lift (attr_get x k dflt).

(** [job.get("client", {}).get(nested) or job.get(flat)]. *)
Definition client_or_flat (job : value) (nested flat : string) : M value :=
  let! client := getattr_get job "client" (VDict ∅) in
  let! v := getattr_get client nested VNone in
  if truthy v then ret v else getattr_get job flat VNone.

(** [x.lower()]: only a [str] has the method. *)
Definition str_lower (x : value) : result string :=
  match x with
  | VStr s => Ok (lower s)
  | _ => Raise (no_attribute x "lower")
  end.

(** [x[:n]]: a [str] or a [list] is sliced, a [dict] cannot take a slice
    as a key, nothing else is subscriptable. *)
Definition slice_to (n : nat) (x : value) : result value :=
  match x with
  | VStr s => Ok (VStr (substring 0 n s))
  | VList l => Ok (VList (take n l))
  | VDict _ => Raise (TypeError "unhashable type: 'slice'")
  | _ => Raise (TypeError ("'" ++ type_name x
                           ++ "' object is not subscriptable"))
  end.

(** Line 223: the placeholder address made from the company name. *)
Definition placeholder_email (lowered : string) : string :=
  replace " " "_" lowered ++ "@gigradar.placeholder".

(** Lines 205-226: the payload is taken apart and the contact created.
    Returns [job], [job_id], [opportunity_id] and the contact id. *)
Definition contact_step (opportunity_data : value)
  : M (value * value * value * option string) :=
  let! job := getattr_get opportunity_data "job" (VDict ∅) in
  let! job_id := getattr_get opportunity_data "jobId" (VStr "") in
  let! opportunity_id := getattr_get opportunity_data "id" (VStr "") in
  let! client_email := client_or_flat job "email" "clientEmail" in
  if truthy client_email then
    let! firstname := client_or_flat job "name" "clientName" in
    let! company := client_or_flat job "company" "companyName" in
    let! contact :=
      create_contact client_email firstname VNone VNone company ∅ in
    ret (job, job_id, opportunity_id, contact)
  else
    let! company := client_or_flat job "company" "companyName" in
    let company_name := company ||| VStr "Unknown Company" in
    let! lowered := lift (str_lower company_name) in
    let! contact :=
      create_contact (VStr (placeholder_email lowered))
        VNone VNone VNone company_name ∅ in
    ret (job, job_id, opportunity_id, contact).

(** Lines 229-242: the deal is created. *)
Definition deal_step (job job_id opportunity_id : value)
    (contact : option string) : M (option string) :=
  let! title := getattr_get job "title" (VStr "Untitled Job") in
  let deal_name := ("GigRadar Opportunity: " ++ str rt title)%string in
  let! b := getattr_get job "budget" VNone in
  let! budget := if truthy b then ret b else getattr_get job "hourlyRate" VNone in
  let amount := if truthy budget then VStr (str rt budget) else VNone in
  let! job_title := getattr_get job "title" (VStr "") in
  let! description := getattr_get job "description" (VStr "") in
  let! job_description := lift (slice_to 500 description) in
  create_deal (VStr deal_name) amount VNone (VStr "appointmentscheduled")
    (VStr "default") contact
    (<["gigradar_opportunity_id" := opportunity_id]>
       (<["gigradar_job_id" := job_id]>
          (<["job_title" := job_title]>
             (<["job_description" := job_description]> ∅)))).

(** Lines 247-249: the handler of [except Exception as e]. *)
Definition on_exception (result : opportunity_result) (e : exn)
  : option (M opportunity_result) :=
  Some (logger ERROR ("Помилка обробки opportunity: " ++ str_exn e) ;;
        ret (append_error (str_exn e) result)).

(** [process_gigradar_opportunity], lines 186-251.  [result] is a
    dictionary mutated in place, so the handler sees the assignments made
    before the exception: the [try] block is split after line 226, where
    [result["contact_id"]] is assigned, with the same handler on both
    halves. *)
Definition process_gigradar_opportunity (opportunity_data : value)
  : M opportunity_result :=
  let result :=
    {| success := false; contact_id := None; deal_id := None; errors := [] |} in
  try_except
    (let! (job, job_id, opportunity_id, contact) :=
       contact_step opportunity_data in
     let result := set_contact_id contact result in
     try_except
       (let! deal := deal_step job job_id opportunity_id contact in
        ret (set_deal_id deal result))
       (on_exception result))
    (on_exception result).

End Services.
End Services.

(* ===================================================================== *)
(** ** integrations/views.py *)
(* ===================================================================== *)

Module Views.
Import Services.

(** What the view reads of the request. *)
Record HttpRequest := {
  body : string;
  HTTP_AUTHORIZATION : option string      (* request.META *)
}.

Record JsonResponse := {
  content : dict;
  status_code : Z
}.

(** [JsonResponse(data)] answers 200 unless [status] is given. *)
Definition json_response (data : list (string * value)) (status : Z) : JsonResponse :=
  {| content := list_to_map data; status_code := status |}.

(** An optional string as a JSON value. *)
Definition of_option (o : option string) : value :=
  match o with
  | Some s => VStr s
  | None => VNone
  end.

(** [v == lit] for a string literal. *)
Definition eq_str (v : value) (lit : string) : bool :=
  match v with
  | VStr s => String.eqb s lit
  | _ => false
  end.

Section Views.
Context (rt : runtime) (client : HubSpot) (env : environ).

(** [_handle_opportunity_create], lines 100-148. *)
Definition _handle_opportunity_create (data : value) : M JsonResponse :=
  try_except
    (let! _ := HubSpotService_init None env in
     let! result := process_gigradar_opportunity rt client data in
     if success result then
       logger INFO ("Opportunity успішно оброблено. Contact ID: "
                    ++ str rt (of_option (contact_id result)) ++ ", Deal ID: "
                    ++ str rt (of_option (deal_id result))) ;;
       ret (json_response
              [("status", VStr "success");
               ("message", VStr "Opportunity processed successfully");
               ("contact_id", of_option (contact_id result));
               ("deal_id", of_option (deal_id result))] 200)
     else
       logger WARNING ("Помилка обробки opportunity: "
                       ++ str rt (VList (VStr <$> errors result))) ;;
       ret (json_response
              [("status", VStr "partial_success");
               ("message", VStr "Opportunity processed with errors");
               ("errors", VList (VStr <$> errors result))] 200))
    (λ e, if is_ValueError e then
            Some (logger ERROR ("Помилка конфігурації HubSpot: " ++ str_exn e) ;;
                  ret (json_response
                         [("status", VStr "error");
                          ("message", VStr "HubSpot configuration error")] 200))
          else
            Some (logger ERROR ("Помилка обробки opportunity: " ++ str_exn e) ;;
                  ret (json_response
                         [("status", VStr "error");
                          ("message", VStr "Failed to process opportunity")] 200))).

(** [_handle_proposal_update], lines 150-188. *)
Definition _handle_proposal_update (data : value) : M JsonResponse :=
  try_except
    (let! proposal := Models.create_from_webhook_data rt data in
     logger INFO ("Proposal збережено в БД: " ++ proposal_id proposal
                  ++ ", статус: " ++ str rt (status proposal)
                  ++ ", помилка: " ++ str rt (has_error proposal)) ;;
     ret (json_response
            [("status", VStr "success");
             ("message", VStr "Proposal saved successfully");
             ("proposal_id", VStr (proposal_id proposal));
             ("saved_at", VStr (isoformat rt (created proposal)))] 200))
    (λ e, if is_ValueError e then
            Some (logger ERROR ("Помилка збереження proposal: " ++ str_exn e) ;;
                  ret (json_response
                         [("status", VStr "error");
                          ("message",
                           VStr ("Failed to save proposal: " ++ str_exn e))] 200))
          else
            Some (logger ERROR ("Помилка обробки proposal: " ++ str_exn e) ;;
                  ret (json_response
                         [("status", VStr "error");
                          ("message", VStr "Failed to process proposal")] 200))).

(** Lines 75-89: the event type and its payload are read and the event is
    routed. *)
Definition route (payload : value) : M JsonResponse :=
  let! ev := lift (attr_get payload "event" VNone) in
  let! event_type :=
    if truthy ev then ret ev else lift (attr_get payload "type" VNone) in
  let! d := lift (attr_get payload "data" VNone) in
  let data := if truthy d then d else payload in
  logger INFO ("Отримано webhook подію: " ++ str rt event_type) ;;
  if eq_str event_type "GIGRADAR.OPPORTUNITY.CREATE" then
    _handle_opportunity_create data
  else if eq_str event_type "GIGRADAR.PROPOSAL.UPDATE"
          || eq_str event_type "GIGRADAR.PROPOSAL.CREATE" then
    _handle_proposal_update data
  else
    logger WARNING ("Невідомий тип події: " ++ str rt event_type) ;;
    ret (json_response
           [("status", VStr "received");
            ("message", VStr ("Event " ++ str rt event_type
                              ++ " received but not processed"))] 200).

(** Line 45: [valid_token and webhook_token != valid_token]. *)
Definition token_rejected (webhook_token : string) : bool :=
  truthy_str (WEBHOOK_TOKEN env)
  && negb (bool_decide (Some webhook_token = WEBHOOK_TOKEN env)).

(** Lines 66-69: both variables are set and the [Authorization] header
    does not start with ["Basic "]. *)
Definition basic_auth_missing (request : HttpRequest) : bool :=
  truthy_str (WEBHOOK_USERNAME env) && truthy_str (WEBHOOK_PASSWORD env)
  && negb (startswith "Basic " (default "" (HTTP_AUTHORIZATION request))).

(** [GigradarWebhookView.post], lines 25-98.  The inner [try] around
    [json.loads] yields the early 400 response ([inl]) or the payload
    ([inr]). *)
Definition post (request : HttpRequest) (webhook_token : string) : M JsonResponse :=
  try_except
    (if token_rejected webhook_token then
       logger WARNING ("Невірний webhook токен: " ++ webhook_token) ;;
       ret (json_response [("error", VStr "Invalid webhook token")] 401)
     else
       let! parsed :=
         try_except
           (let! payload := lift (json_loads rt (body request)) in
            ret (inr payload))
           (λ e, match e with
                 | JSONDecodeError _ =>
                     Some (logger ERROR "Невірний JSON формат в webhook" ;;
                           ret (inl (json_response
                                       [("error", VStr "Invalid JSON format")] 400)))
                 | _ => None
                 end) in
       match parsed with
       | inl response => ret response
       | inr payload =>
           if basic_auth_missing request then
             ret (json_response [("error", VStr "Authentication required")] 401)
           else route payload
       end)
    (λ e, Some (logger ERROR ("Помилка обробки webhook: " ++ str_exn e) ;;
                ret (json_response
                       [("status", VStr "error");
                        ("message", VStr "Internal server error")] 200))).

(** [webhook_health_check], lines 191-200. *)
Definition webhook_health_check : M JsonResponse :=
  ret (json_response
         [("status", VStr "ok");
          ("service", VStr "Gigradar Webhook Handler")] 200).

End Views.
End Views.

(* ===================================================================== *)
(** ** integrations/admin.py *)
(* ===================================================================== *)

Module Admin.

(** [GigradarProposalAdmin.readonly_fields], lines 37-42. *)
Definition readonly_fields : list string :=
  ["proposal_id"; "created"; "updated"; "raw_data"].

(** [GigradarProposalAdmin.fieldsets], lines 44-70: the fields of each
    group of the form, in order. *)
Definition fieldsets : list (list string) :=
  [ ["proposal_id"; "opportunity_id"; "job_id"; "status"];
    ["sent_at"; "scheduled_at"; "created_at"; "created"; "updated"];
    ["has_error"; "error_code"; "error_message"];
    ["job_title"; "job_budget"; "job_type"];
    ["client_email"; "client_name"; "client_company"];
    ["scanner_id"; "scanner_name"; "team_id"; "team_name"];
    ["hubspot_contact_id"; "hubspot_deal_id"];
    ["raw_data"] ].

(** [get_readonly_fields(request, obj)], lines 74-86; [obj] is [None] on
    the form that adds a row, and a model instance is truthy. *)
Definition get_readonly_fields (obj : option GigradarProposal) : list string :=
  match obj with
  | Some _ =>
      readonly_fields ++
      ["proposal_id"; "opportunity_id"; "job_id"; "status";
       "sent_at"; "scheduled_at"; "created_at";
       "has_error"; "error_code"; "error_message";
       "job_title"; "job_budget"; "job_type";
       "client_email"; "client_name"; "client_company";
       "scanner_id"; "scanner_name"; "team_id"; "team_name";
       "hubspot_contact_id"; "hubspot_deal_id"]
  | None => readonly_fields
  end.

End Admin.

(* ===================================================================== *)
(** ** Test doubles *)
(* ===================================================================== *)

(** Concrete stand-ins for the parameters, used to run the model on
    examples.  [test_runtime] knows one well-formed date, one date that
    the parser rejects by raising (month 13) and a few request bodies. *)
Module Doubles.

Definition jan15 : datetime :=
  {| year := 2024; month := 1; day := 15; hour := 10; minute := 30;
     second := 0; microsecond := 0; utcoffset := None |}.
Definition feb01 : datetime :=
  {| year := 2024; month := 2; day := 1; hour := 8; minute := 0;
     second := 0; microsecond := 0; utcoffset := None |}.
Definition mar09 : datetime :=
  {| year := 2024; month := 3; day := 9; hour := 17; minute := 45;
     second := 0; microsecond := 0; utcoffset := None |}.

Definition test_runtime : runtime :=
  {| py_str := λ v,
       match v with
       | VNone => "None"
       | VBool true => "True"
       | VBool false => "False"
       | VInt n => pretty n
       | VStr s => s
       | _ => "<object>"
       end;
     py_float := λ v,
       match v with
       | VFloat f => Some f
       | VBool true => Some 1%float
       | _ => None
       end;
     parse_datetime := λ s,
       if String.eqb s "2024-01-15T10:30:00" then Ok (Some jan15)
       else if String.eqb s "2024-02-01T08:00:00" then Ok (Some feb01)
       else if String.eqb s "2024-13-45T00:00:00"
            then Raise (ValueError "month must be in 1..12")
       else Ok None;
     json_loads := λ s,
       if String.eqb s "{}" then Ok (VDict ∅)
       else if String.eqb s "[]" then Ok (VList [])
       else if String.eqb s "null" then Ok VNone
       else Raise (JSONDecodeError "Expecting value");
     isoformat := λ _, "2024-03-09T17:45:00" |}.

(** A CRM that creates contact ["101"] on the first request and reports a
    conflict (409) on every later one, finds ["101"] once it exists, and
    creates deal ["201"]. *)
Definition is_contacts_create (c : api_call) : bool :=
  match c with
  | ContactsCreate _ => true
  | _ => false
  end.

Definition test_client : HubSpot :=
  {| contacts_basic_api_create := λ history _,
       if existsb is_contacts_create history
       then Raise (ContactApiException 409 "Contact already exists")
       else Ok "101";
     contacts_search_api_do_search := λ history _,
       if existsb is_contacts_create history then Ok ["101"] else Ok [];
     deals_basic_api_create := λ _ _, Ok "201";
     associations_batch_api_create := λ _ _ _, Ok tt |}.

Definition empty_world : world :=
  {| db := []; clock := mar09; calls := []; log := [] |}.

(** Proposal payloads. *)
Definition first_payload : dict :=
  {[ "id" := VStr "p1"; "sent" := VStr "2024-01-15T10:30:00" ]}.
Definition bad_date_payload : dict :=
  {[ "id" := VStr "p1";
     "sent" := VStr "2024-13-45T00:00:00";
     "scheduledAt" := VStr "2024-02-01T08:00:00";
     "opportunityId" := VStr "o1";
     "job" := VDict {[ "title" := VStr "Build a site";
                       "client" := VDict {[ "email" := VStr "a@b.com" ]} ]} ]}.

(** A deployment with a path token and Basic authentication set. *)
Definition test_environ : environ :=
  {| WEBHOOK_TOKEN := Some "secret";
     WEBHOOK_USERNAME := Some "gigradar";
     WEBHOOK_PASSWORD := Some "hunter2";
     HUBSPOT_ACCESS_TOKEN := Some "pat-123" |}.

(** Opportunity payloads without a client email: a company; a company
    and a null job description; a number where the company name goes. *)
Definition acme_payload : dict :=
  {[ "id" := VStr "opp1";
     "jobId" := VStr "job1";
     "job" := VDict {[ "title" := VStr "Build a site";
                       "companyName" := VStr "Acme Co" ]} ]}.
Definition null_description_payload : dict :=
  {[ "id" := VStr "opp1";
     "jobId" := VStr "job1";
     "job" := VDict {[ "title" := VStr "Build a site";
                       "companyName" := VStr "Acme Co";
                       "description" := VNone ]} ]}.


(** Two rows already stored, for "p1" and "p7". *)
Definition two_rows : world :=
  {| db := [Models.touch mar09
              (Models.assign_fields test_runtime first_payload
                 (Models.new_row "p1" mar09));
            Models.new_row "p7" feb01];
     clock := mar09; calls := []; log := [] |}.

(** An opportunity payload with a client email, nested. *)
Definition client_payload : dict :=
  {[ "id" := VStr "opp2";
     "job" := VDict {[ "title" := VStr "Fix a bug";
                       "description" := VStr "Short text";
                       "budget" := VInt 500;
                       "clientEmail" := VStr "flat@b.com";
                       "client" := VDict {[ "email" := VStr "a@b.com";
                                            "name" := VStr "Ann" ]} ]} ]}.


(** A CRM whose association endpoint fails. *)
Definition unlinking_client : HubSpot :=
  {| contacts_basic_api_create := λ _ _, Ok "101";
     contacts_search_api_do_search := λ _ _, Ok [];
     deals_basic_api_create := λ _ _, Ok "201";
     associations_batch_api_create := λ _ _ _,
       Raise (Exception "association failed") |}.

(** Request bodies with an event, and a decoder that knows them. *)
Definition dq : string := String (ascii_of_nat 34) EmptyString.
Definition proposal_body : string :=
  "{" ++ dq ++ "event" ++ dq ++ ": " ++ dq ++ "GIGRADAR.PROPOSAL.UPDATE" ++ dq
  ++ ", " ++ dq ++ "id" ++ dq ++ ": " ++ dq ++ "p1" ++ dq ++ "}".
Definition proposal_body_payload : dict :=
  {[ "event" := VStr "GIGRADAR.PROPOSAL.UPDATE"; "id" := VStr "p1" ]}.
Definition opportunity_body : string :=
  "{" ++ dq ++ "type" ++ dq ++ ": " ++ dq ++ "GIGRADAR.OPPORTUNITY.CREATE" ++ dq
  ++ ", " ++ dq ++ "data" ++ dq ++ ": {}}".
Definition opportunity_body_payload : dict :=
  {[ "type" := VStr "GIGRADAR.OPPORTUNITY.CREATE"; "data" := VDict ∅ ]}.
Definition orphan_body : string :=
  "{" ++ dq ++ "event" ++ dq ++ ": " ++ dq ++ "GIGRADAR.PROPOSAL.CREATE" ++ dq
  ++ "}".
Definition orphan_body_payload : dict :=
  {[ "event" := VStr "GIGRADAR.PROPOSAL.CREATE" ]}.

Definition webhook_runtime : runtime :=
  {| py_str := py_str test_runtime;
     py_float := py_float test_runtime;
     parse_datetime := parse_datetime test_runtime;
     json_loads := λ s,
       if String.eqb s proposal_body then Ok (VDict proposal_body_payload)
       else if String.eqb s opportunity_body
            then Ok (VDict opportunity_body_payload)
       else if String.eqb s orphan_body then Ok (VDict orphan_body_payload)
       else json_loads test_runtime s;
     isoformat := isoformat test_runtime |}.

(** A request without an [Authorization] header. *)
Definition sent (body : string) : Views.HttpRequest :=
  {| Views.body := body; Views.HTTP_AUTHORIZATION := None |}.

(** A deployment without Basic authentication and without a CRM token. *)
Definition open_environ : environ :=
  {| WEBHOOK_TOKEN := Some "secret";
     WEBHOOK_USERNAME := None;
     WEBHOOK_PASSWORD := None;
     HUBSPOT_ACCESS_TOKEN := None |}.

(** The same with a CRM token. *)
Definition crm_environ : environ :=
  {| WEBHOOK_TOKEN := Some "secret";
     WEBHOOK_USERNAME := None;
     WEBHOOK_PASSWORD := None;
     HUBSPOT_ACCESS_TOKEN := Some "pat-123" |}.

End Doubles.

(* ===================================================================== *)
(** ** Vocabulary of the specification *)
(* ===================================================================== *)

(** A computation that returns on every world. *)
Definition returns {A} (m : M A) : Prop :=
  ∀ w, ∃ a w', m w = (Ok a, w').

(** Key [k] of the payload holds a usable (truthy) identifier. *)
Definition yields_identifier (data : dict) (k : string) : Prop :=
  ∃ v, data !! k = Some v ∧ truthy v = true.

(** The payload without its three identifier keys. *)
Definition strip_identifiers (data : dict) : dict :=
  delete "id" (delete "proposalId" (delete "_id" data)).

(** [cls.objects.get(proposal_id=key)]: the first row with the identifier
    and its primary key. *)
Definition find_row (key : string) (w : world) : option (nat * GigradarProposal) :=
  list_find (λ p, proposal_id p = key) (db w).

(** The instance [get_or_create] hands to the assignments: the stored row,
    or the bare new one. *)
Definition prior_row (key : string) (w : world) : GigradarProposal :=
  match find_row key w with
  | Some (_, p) => p
  | None => Models.new_row key (clock w)
  end.

(** The table honours the [unique=True] constraint of [proposal_id]. *)
Definition unique_proposal_id (rows : list GigradarProposal) : Prop :=
  NoDup (proposal_id <$> rows).

(** One webhook delivery of [data] at time [t]: the world it leaves. *)
Definition deliver (rt : runtime) (data : value) (w : world) (t : datetime) : world :=
  (Models.create_from_webhook_data rt data (set_clock t w)).2.

(** The three timestamp attributes. *)
Inductive timestamp := Sent | ScheduledAt | CreatedAt.

Definition timestamp_of (f : timestamp) (p : GigradarProposal) : value :=
  match f with
  | Sent => sent_at p
  | ScheduledAt => scheduled_at p
  | CreatedAt => created_at p
  end.

(** What the payload holds for a timestamp, if it holds anything:
    ['sent'], ['scheduledAt'], and ['createdAt'] or else ['created_at']. *)
Definition payload_timestamp (f : timestamp) (data : dict) : option value :=
  match f with
  | Sent => data !! "sent"
  | ScheduledAt => data !! "scheduledAt"
  | CreatedAt =>
      if contains data "createdAt" || contains data "created_at"
      then Some (get data "createdAt" ||| get data "created_at")
      else None
  end.


(** The attribute made of a successful parse. *)
Definition parsed (o : option datetime) : value :=
  match o with
  | Some t => VDatetime t
  | None => VNone
  end.





(** The [try] block of [process_gigradar_opportunity] as one computation:
    the contact step, then the deal step. *)
Definition opportunity_flow (rt : runtime) (crm : HubSpot) (opportunity_data : value)
  : M (option string) :=
  let! (job, job_id, opportunity_id, contact) :=
    Services.contact_step rt crm opportunity_data in
  Services.deal_step rt crm job job_id opportunity_id contact.

(** A static token is configured (set and not empty) and the path token is
    not that token. *)
Definition token_mismatch (env : environ) (webhook_token : string) : bool :=
  match WEBHOOK_TOKEN env with
  | Some valid => negb (String.eqb valid "") && negb (String.eqb webhook_token valid)
  | None => false
  end.

(** A username and a password are configured and the request has no
    [Authorization] header that starts with "Basic ". *)
Definition basic_header_missing (env : environ) (request : Views.HttpRequest)
  : bool :=
  match WEBHOOK_USERNAME env, WEBHOOK_PASSWORD env with
  | Some username, Some password =>
      negb (String.eqb username "") && negb (String.eqb password "")
      && match Views.HTTP_AUTHORIZATION request with
         | Some header => negb (String.prefix "Basic " header)
         | None => true
         end
  | _, _ => false
  end.

(** The status the view is to answer with, read off the request: 401 on a
    token mismatch; else 400 when the decoder rejects the body with a JSON
    decode error; else 401 when the Basic header is required and missing;
    200 in every other case. *)
Definition expected_status (rt : runtime) (env : environ)
    (request : Views.HttpRequest) (webhook_token : string) : Z :=
  if token_mismatch env webhook_token then 401
  else
    match json_loads rt (Views.body request) with
    | Raise (JSONDecodeError _) => 400
    | Raise _ => 200
    | Ok _ => if basic_header_missing env request then 401 else 200
    end.

(** The body of a response reports a failure: its status is "error", or it
    is "partial_success" and the body lists the errors. *)
Definition error_shaped (response : Views.JsonResponse) : Prop :=
  Views.content response !! "status" = Some (VStr "error")
  ∨ (Views.content response !! "status" = Some (VStr "partial_success")
     ∧ ∃ errors, Views.content response !! "errors" = Some (VList errors)).

(** A computation that leaves the proposal table and the clock as they
    were. *)
Definition keeps_table {A} (m : M A) : Prop :=
  ∀ w, db (m w).2 = db w ∧ clock (m w).2 = clock w.

(** A computation that sends nothing to the CRM. *)
Definition keeps_trace {A} (m : M A) : Prop :=
  ∀ w, calls (m w).2 = calls w.

(** A computation that only adds to the trace of CRM calls and to the log. *)
Definition appends_only {A} (m : M A) : Prop :=
  ∀ w, calls w `prefix_of` calls (m w).2 ∧ log w `prefix_of` log (m w).2.

(** The requests one opportunity event may send, in order: a contact
    request, a search after a conflict, a deal request, an association. *)
Definition opportunity_trace (trace : list api_call) : bool :=
  match trace with
  | [] => true
  | ContactsCreate _ :: after_contact =>
      let after_search :=
        match after_contact with
        | ContactsSearch _ :: rest => rest
        | _ => after_contact
        end in
      match after_search with
      | [] | [DealsCreate _] | [DealsCreate _; AssociationsCreate _ _] => true
      | _ => false
      end
  | _ => false
  end.

(** The event type and the event payload the view reads off a decoded
    body (views.py, lines 76-77). *)
Definition event_type_of (payload : dict) : value :=
  get payload "event" ||| get payload "type".
Definition event_data_of (payload : dict) : value :=
  if truthy (get payload "data") then get payload "data" else VDict payload.

Definition is_opportunity_event (event_type : value) : bool :=
  Views.eq_str event_type "GIGRADAR.OPPORTUNITY.CREATE".
Definition is_proposal_event (event_type : value) : bool :=
  Views.eq_str event_type "GIGRADAR.PROPOSAL.UPDATE"
  || Views.eq_str event_type "GIGRADAR.PROPOSAL.CREATE".

(** The request passes the token check, decodes to an object and passes
    the Basic header check: it reaches the routing of events. *)
Definition reaches_routing (rt : runtime) (env : environ)
    (request : Views.HttpRequest) (webhook_token : string) (payload : dict)
  : Prop :=
  token_mismatch env webhook_token = false
  ∧ json_loads rt (Views.body request) = Ok (VDict payload)
  ∧ basic_header_missing env request = false.


(** What one request may do to the world: the clock is not moved, requests
    to the CRM and log lines are only added, at most one row is added and
    none is removed, and [proposal_id] stays unique if it was. *)
Definition advances (w w' : world) : Prop :=
  clock w' = clock w
  ∧ calls w `prefix_of` calls w'
  ∧ log w `prefix_of` log w'
  ∧ length (db w) ≤ length (db w') ≤ S (length (db w))
  ∧ (unique_proposal_id (db w) → unique_proposal_id (db w')).
(* ===================================================================== *)
(** ** Properties of Python values and of the effect monad *)
(* ===================================================================== *)

Section PyFacts.
Implicit Types (a b : value) (d : dict) (k : string).

(** The falsy values: [None], [False], zero, and the empty string, list
    and dictionary. *)
Example falsy_values :
  Forall (λ v, truthy v = false)
    [VNone; VBool false; VInt 0; VFloat 0; VStr ""; VList []; VDict ∅].
Proof. repeat constructor. Qed.

Lemma truthy_py_or a b : truthy (a ||| b) = truthy a || truthy b.
Proof. unfold py_or. destruct (truthy a) eqn:Ha; [by rewrite Ha | done]. Qed.


Lemma truthy_str_Some s : truthy_str (Some s) = true ↔ s ≠ "".
Proof.
  simpl. rewrite negb_true_iff. split.
  - intros H ->. by rewrite String.eqb_refl in H.
  - intros H. by apply String.eqb_neq.
Qed.

End PyFacts.

Section EffFacts.
Context {A B : Type}.

Lemma returns_ret (a : A) : returns (ret a).
Proof. intros w. by exists a, w. Qed.

Lemma returns_bind (m : M A) (k : A → M B) :
  returns m → (∀ a, returns (k a)) → returns (bind m k).
Proof.
  intros Hm Hk w. destruct (Hm w) as (a & w' & E).
  destruct (Hk a w') as (b & w'' & E'). exists b, w''.
  unfold bind. by rewrite E.
Qed.

(** A [try] whose handlers catch every exception and return. *)
Lemma returns_try_except (m : M A) (h : exn → option (M A)) :
  (∀ e, ∃ k, h e = Some k ∧ returns k) → returns (try_except m h).
Proof.
  intros Hh w. unfold try_except.
  destruct (m w) as [[a|e] w'].
  - by exists a, w'.
  - destruct (Hh e) as (k & -> & Hk). apply Hk.
Qed.

End EffFacts.

Lemma returns_logger l msg : returns (logger l msg).
Proof. intros w. by eexists _, _. Qed.

(* ===================================================================== *)
(** ** models.py: the identifier *)
(* ===================================================================== *)

Section Identifier.
Context (rt : runtime).
Import Models.

Lemma not_yields_falsy data k :
  ¬ yields_identifier data k → truthy (get data k) = false.
Proof.
  intros H. unfold get. destruct (data !! k) as [v|] eqn:E; [|done].
  simpl. destruct (truthy v) eqn:Hv; [|done].
  exfalso. apply H. by exists v.
Qed.

Lemma falsy_not_yields data k :
  (∀ v, data !! k = Some v → truthy v = false) → ¬ yields_identifier data k.
Proof. intros H (v & E & Hv). rewrite (H v E) in Hv. done. Qed.

Lemma extract_proposal_id_falsy data :
  ¬ yields_identifier data "id" →
  ¬ yields_identifier data "proposalId" →
  ¬ yields_identifier data "_id" →
  truthy (extract_proposal_id data) = false.
Proof.
  intros H1 H2 H3. unfold extract_proposal_id.
  rewrite !truthy_py_or.
  by rewrite !not_yields_falsy.
Qed.

Lemma create_raises_when_falsy data w :
  truthy (extract_proposal_id data) = false →
  create_from_webhook_data rt (VDict data) w
  = (Raise (ValueError "Proposal ID не знайдено в даних"), w).
Proof.
  intros H. unfold create_from_webhook_data. by rewrite H.
Qed.

(** A payload that is not a dictionary has no [get]: nothing is stored. *)
Lemma create_on_non_dict data w :
  (∀ d, data ≠ VDict d) →
  create_from_webhook_data rt data w = (Raise (no_attribute data "get"), w).
Proof. intros Hne. destruct data; try done. by destruct (Hne d). Qed.

(** C2: when none of the keys 'id', 'proposalId', '_id' yields an
    identifier, [create_from_webhook_data] raises [ValueError] and the
    world it leaves is the world it was given: the table has the same
    rows, none created and none modified. *)
Theorem create_without_identifier_raises (data : dict) (w : world) :
  ¬ yields_identifier data "id" →
  ¬ yields_identifier data "proposalId" →
  ¬ yields_identifier data "_id" →
  ∃ msg,
    create_from_webhook_data rt (VDict data) w = (Raise (ValueError msg), w).
Proof.
  intros H1 H2 H3. eexists.
  apply create_raises_when_falsy. by apply extract_proposal_id_falsy.
Qed.

(** C10: when every identifier key that is present holds a falsy value
    (and at least one is present), the identifier counts as missing:
    [create_from_webhook_data] raises the same [ValueError], leaving the
    same world, as on the payload with the three keys taken out. *)
Theorem falsy_identifier_is_missing (data : dict) (w : world) :
  (∀ k v, k ∈ ["id"; "proposalId"; "_id"] →
          data !! k = Some v → truthy v = false) →
  (∃ k, k ∈ ["id"; "proposalId"; "_id"] ∧ is_Some (data !! k)) →
  create_from_webhook_data rt (VDict data) w
  = (Raise (ValueError "Proposal ID не знайдено в даних"), w)
  ∧ create_from_webhook_data rt (VDict data) w
    = create_from_webhook_data rt (VDict (strip_identifiers data)) w.
Proof.
  intros Hfalsy _.
  assert (∀ k, k ∈ ["id"; "proposalId"; "_id"] → ¬ yields_identifier data k)
    as Hno.
  { intros k Hk. apply falsy_not_yields. intros v. by apply Hfalsy. }
  assert (∀ k, k ∈ ["id"; "proposalId"; "_id"] →
               ¬ yields_identifier (strip_identifiers data) k) as Hstrip.
  { intros k Hk (v & E & _). unfold strip_identifiers in E.
    rewrite !lookup_delete_Some in E.
    destruct E as (? & ? & ? & _).
    rewrite !elem_of_cons, elem_of_nil in Hk.
    destruct Hk as [->|[->|[->|[]]]]; done. }
  rewrite !create_raises_when_falsy; [done| |].
  - apply extract_proposal_id_falsy; apply Hstrip;
      rewrite !elem_of_cons; auto.
  - apply extract_proposal_id_falsy; apply Hno;
      rewrite !elem_of_cons; auto.
Qed.

End Identifier.

Lemma create_without_identifier_raises_witness :
  ∃ msg,
    Models.create_from_webhook_data Doubles.test_runtime
      (VDict {["jobId" := VStr "j1"]}) Doubles.empty_world
    = (Raise (ValueError msg), Doubles.empty_world).
Proof.
  apply create_without_identifier_raises;
    intros (v & E & _); vm_compute in E; discriminate.
Defined.

Lemma falsy_identifier_is_missing_witness :
  let data : dict := <["id" := VStr ""]> (<["_id" := VInt 0]> {["jobId" := VStr "j1"]}) in
  Models.create_from_webhook_data Doubles.test_runtime (VDict data) Doubles.empty_world
  = (Raise (ValueError "Proposal ID не знайдено в даних"), Doubles.empty_world)
  ∧ Models.create_from_webhook_data Doubles.test_runtime (VDict data) Doubles.empty_world
    = Models.create_from_webhook_data Doubles.test_runtime
        (VDict (strip_identifiers data)) Doubles.empty_world.
Proof.
  intros data. apply falsy_identifier_is_missing.
  - intros k v Hk E. rewrite !elem_of_cons, elem_of_nil in Hk.
    destruct Hk as [->|[->|[->|[]]]]; vm_compute in E;
      try discriminate; by injection E as <-.
  - exists "id". split; [rewrite !elem_of_cons; auto|].
    vm_compute. eauto.
Defined.

(* ===================================================================== *)
(** ** models.py: the upsert *)
(* ===================================================================== *)

Section Upsert.
Context (rt : runtime).
Import Models.







(** The identifier is already in the table: the row is updated in place. *)
Lemma create_on_existing data w pk p :
  truthy (extract_proposal_id data) = true →
  find_row (charfield_text rt (extract_proposal_id data)) w = Some (pk, p) →
  create_from_webhook_data rt (VDict data) w
  = (Ok (touch (clock w) (assign_fields rt data p)),
     set_db (<[pk := touch (clock w) (assign_fields rt data p)]> (db w)) w).
Proof.
  intros Hid Hfind. unfold create_from_webhook_data. cbv zeta.
  rewrite Hid. cbn [negb]. unfold bind, get_or_create.
  unfold find_row in Hfind. by rewrite Hfind.
Qed.

(** The identifier is new: one row is appended. *)
Lemma create_on_fresh data w :
  truthy (extract_proposal_id data) = true →
  find_row (charfield_text rt (extract_proposal_id data)) w = None →
  let key := charfield_text rt (extract_proposal_id data) in
  let p' := touch (clock w) (assign_fields rt data (new_row key (clock w))) in
  create_from_webhook_data rt (VDict data) w
  = (Ok p', set_db (db w ++ [p']) w).
Proof.
  intros Hid Hfind key p'. unfold create_from_webhook_data. cbv zeta.
  rewrite Hid. cbn [negb]. unfold bind, get_or_create.
  unfold find_row in Hfind. rewrite Hfind. unfold save.
  cbn [db clock set_db].
  rewrite insert_app_r_alt by done. by rewrite Nat.sub_diag.
Qed.

Lemma find_row_insert key w pk p p' :
  find_row key w = Some (pk, p) → proposal_id p' = key →
  find_row key (set_db (<[pk := p']> (db w)) w) = Some (pk, p').
Proof.
  unfold find_row. cbn [db set_db]. intros Hfind Hid.
  apply list_find_Some in Hfind as (Hpk & _ & Hleast).
  apply list_find_Some. split_and!; [|done|].
  - apply list_lookup_insert_eq. by eapply lookup_lt_Some.
  - intros j y Hj Hlt. rewrite list_lookup_insert_ne in Hj by lia. eauto.
Qed.

Lemma find_row_snoc key w p' :
  find_row key w = None → proposal_id p' = key →
  find_row key (set_db (db w ++ [p']) w) = Some (length (db w), p').
Proof.
  unfold find_row. cbn [db set_db]. intros Hfind Hid.
  rewrite list_find_app_r by done. cbn.
  rewrite decide_True by done. done.
Qed.

(** Every delivery with an identifier succeeds and leaves the row it
    wrote as the row of that identifier. *)
Lemma delivery data w t :
  truthy (extract_proposal_id data) = true →
  let key := charfield_text rt (extract_proposal_id data) in
  let r := touch t (assign_fields rt data (prior_row key (set_clock t w))) in
  let w' := deliver rt (VDict data) w t in
  ∃ pk,
    create_from_webhook_data rt (VDict data) (set_clock t w) = (Ok r, w')
    ∧ find_row key w' = Some (pk, r)
    ∧ clock w' = t ∧ calls w' = calls w ∧ log w' = log w
    ∧ (db w' = <[pk := r]> (db w) ∧ (∃ p, find_row key w = Some (pk, p))
       ∨ db w' = db w ++ [r] ∧ find_row key w = None).
Proof.
  intros Hid key r w'. subst r w'. unfold deliver, prior_row.
  change (find_row key (set_clock t w)) with (find_row key w).
  destruct (find_row key w) as [[pk p]|] eqn:Hfind.
  - exists pk. rewrite (create_on_existing data (set_clock t w) pk p) by done.
    cbn [snd clock set_clock calls log set_db db].
    split_and!; try done; [|left; split; [done|by exists p]].
    apply (find_row_insert key (set_clock t w) pk p); [done|].
    by apply list_find_Some in Hfind as (_ & ? & _).
  - exists (length (db w)). rewrite (create_on_fresh data (set_clock t w)) by done.
    cbn [snd clock set_clock calls log set_db db].
    split_and!; try done; [|by right].
    by apply (find_row_snoc key (set_clock t w)).
Qed.

(** Delivery keeps the identifiers of the table pairwise distinct. *)
Lemma delivery_unique data w t :
  truthy (extract_proposal_id data) = true →
  unique_proposal_id (db w) →
  unique_proposal_id (db (deliver rt (VDict data) w t)).
Proof.
  intros Hid Huniq.
  destruct (delivery data w t Hid) as (pk & _ & Hfind & _ & _ & _ & Hdb).
  unfold unique_proposal_id in *.
  destruct Hdb as [[-> [p Hold]]|[-> Hnone]].
  - apply list_find_Some in Hfind as (_ & Hkey & _).
    apply list_find_Some in Hold as (Hpk & Hkey' & _).
    rewrite list_fmap_insert, list_insert_id; [done|].
    rewrite list_lookup_fmap, Hpk. cbn. f_equal.
    rewrite Hkey'. symmetry. exact Hkey.
  - rewrite fmap_app. apply NoDup_app. split_and!; [done| |apply NoDup_singleton].
    intros x Hx Hx'. apply list_elem_of_singleton in Hx'. subst x.
    apply list_find_Some in Hfind as (_ & Hkey & _).
    apply list_find_None in Hnone. rewrite Forall_forall in Hnone.
    apply list_elem_of_fmap in Hx as (q & Hq & Hin).
    apply (Hnone q Hin). by rewrite <- Hq, Hkey.
Qed.




End Upsert.

(* ===================================================================== *)
(** ** models.py: the attributes *)
(* ===================================================================== *)

Section Fields.
Context (rt : runtime).
Import Models.




Lemma timestamp_of_assign f data p t :
  timestamp_of f (touch t (assign_fields rt data p))
  = match payload_timestamp f data with
    | Some x => assign_datetime rt x (timestamp_of f p)
    | None => timestamp_of f p
    end.
Proof.
  destruct f; cbn.
  - unfold contains, get.
    destruct (data !! "sent"); [by rewrite bool_decide_eq_true_2|done].
  - unfold contains, get.
    destruct (data !! "scheduledAt"); [by rewrite bool_decide_eq_true_2|done].
  - by destruct (contains data "createdAt" || contains data "created_at").
Qed.




(** A string in which the parser finds no date (it returns [None] instead of
    raising) is not skipped: the timestamp is cleared. *)
Lemma unparsed_date_clears_field (data : dict) (p : GigradarProposal) t f s :
  payload_timestamp f data = Some (VStr s) →
  parse_datetime rt s = Ok None →
  timestamp_of f (touch t (assign_fields rt data p)) = VNone.
Proof.
  intros Hraw Hparse. rewrite timestamp_of_assign, Hraw. cbn. by rewrite Hparse.
Qed.

End Fields.

(* ===================================================================== *)
(** ** models.py: the theorems on examples *)
(* ===================================================================== *)

Section ModelsExamples.
Import Models Doubles.




(** The row of the example after a malformed 'sent': [sent_at] is unset,
    [scheduled_at] parsed, the client read from the nested document. *)
Example bad_date_row :
  ∃ r w',
    create_from_webhook_data test_runtime (VDict bad_date_payload) empty_world
    = (Ok r, w')
    ∧ sent_at r = VNone
    ∧ scheduled_at r = VDatetime feb01
    ∧ opportunity_id r = VStr "o1"
    ∧ job_title r = VStr "Build a site"
    ∧ client_email r = VStr "a@b.com".
Proof. eexists _, _. split; [by vm_compute|]. by vm_compute. Qed.



End ModelsExamples.

(* ===================================================================== *)
(** ** services.py *)
(* ===================================================================== *)

Section ServicesFacts.
Context (rt : runtime) (crm : HubSpot).
Import Services.

(** The search: the first result, or nothing; never raises. *)
Lemma find_contact_by_email_run email w :
  _find_contact_by_email crm email w
  = match contacts_search_api_do_search crm (calls w) email with
    | Ok results => (Ok (head results), add_call (ContactsSearch email) w)
    | Raise e =>
        (Ok None,
         add_log (ERROR, ("Помилка пошуку контакту: " ++ str_exn e)%string)
           (add_call (ContactsSearch email) w))
    end.
Proof.
  unfold _find_contact_by_email, try_except, bind, contacts_do_search.
  by destruct (contacts_search_api_do_search crm (calls w) email).
Qed.

(** [create_contact], by the answer of the CRM. *)
Lemma create_contact_run email firstname lastname phone company kwargs w :
  let properties :=
    contact_properties email firstname lastname phone company kwargs in
  let w1 := add_call (ContactsCreate properties) w in
  create_contact rt crm email firstname lastname phone company kwargs w
  = match contacts_basic_api_create crm (calls w) properties with
    | Ok id =>
        (Ok (Some id),
         add_log (INFO, ("Контакт створено в HubSpot: " ++ id ++ ", email: "
                         ++ str rt email)%string) w1)
    | Raise (ContactApiException status msg) =>
        let w2 :=
          add_log (ERROR, ("Помилка створення контакту в HubSpot: "
                           ++ msg)%string) w1 in
        if (status =? 409)%Z then
          _find_contact_by_email crm email
            (add_log (INFO, ("Контакт з email " ++ str rt email
                             ++ " вже існує")%string) w2)
        else (Ok None, w2)
    | Raise e => (Raise e, w1)
    end.
Proof.
  intros properties w1.
  unfold create_contact, try_except, bind, contacts_create.
  fold properties. fold w1.
  destruct (contacts_basic_api_create crm (calls w) properties) as [id|[]];
    try done.
  unfold logger, ret. cbn [str_exn]. by destruct (_ =? 409)%Z.
Qed.

(** C5: [create_contact] by the answer of the CRM to the create request.
    An id: that id is returned.  A conflict (status 409): the contact is
    searched by its email, and the first result's id is returned, or
    nothing when the search finds nothing or raises.  Any other API
    failure: nothing is returned and the error is logged.  In the last two
    cases nothing is raised. *)
Theorem create_contact_outcomes
    (email firstname lastname phone company : value) (kwargs : dict) (w : world) :
  let properties :=
    contact_properties email firstname lastname phone company kwargs in
  let answer := contacts_basic_api_create crm (calls w) properties in
  let w1 := add_call (ContactsCreate properties) w in
  let run :=
    create_contact rt crm email firstname lastname phone company kwargs w in
  (∀ id, answer = Ok id →
     ∃ w', run = (Ok (Some id), w')
           ∧ calls w' = calls w ++ [ContactsCreate properties])
  ∧ (∀ msg, answer = Raise (ContactApiException 409 msg) →
     ∃ w' rest,
       run = (Ok match contacts_search_api_do_search crm (calls w1) email with
                 | Ok results => head results
                 | Raise _ => None
                 end, w')
       ∧ calls w' = calls w ++ [ContactsCreate properties; ContactsSearch email]
       ∧ log w' = log w ++ (ERROR, ("Помилка створення контакту в HubSpot: "
                                    ++ msg)%string) :: rest)
  ∧ (∀ status msg, status ≠ 409%Z →
     answer = Raise (ContactApiException status msg) →
     ∃ w', run = (Ok None, w')
           ∧ calls w' = calls w ++ [ContactsCreate properties]
           ∧ log w' = log w ++ [(ERROR, ("Помилка створення контакту в HubSpot: "
                                         ++ msg)%string)]).
Proof.
  intros properties answer w1 run. subst run.
  rewrite create_contact_run. fold properties answer w1.
  split_and!.
  - intros id ->. by eexists.
  - intros msg ->. cbn [Z.eqb Pos.eqb]. cbv zeta.
    rewrite find_contact_by_email_run. cbn [calls add_log].
    destruct (contacts_search_api_do_search crm (calls w1) email);
      eexists _, _; (split; [reflexivity|]);
      cbn [calls log add_call add_log w1]; by rewrite <- !app_assoc.
  - intros status msg Hne ->. cbv zeta.
    apply Z.eqb_neq in Hne. rewrite Hne. by eexists.
Qed.

(** Outside the API's own exception class nothing is caught. *)
Lemma create_contact_propagates email firstname lastname phone company kwargs w e :
  let properties :=
    contact_properties email firstname lastname phone company kwargs in
  contacts_basic_api_create crm (calls w) properties = Raise e →
  (∀ status msg, e ≠ ContactApiException status msg) →
  create_contact rt crm email firstname lastname phone company kwargs w
  = (Raise e, add_call (ContactsCreate properties) w).
Proof.
  intros properties Hans Hne. rewrite create_contact_run.
  fold properties. rewrite Hans.
  destruct e as [| | | |st m| |]; try done. by destruct (Hne st m).
Qed.

(** [process_gigradar_opportunity], by the outcome of its two steps. *)
Lemma process_run data w :
  let result0 :=
    {| success := false; contact_id := None; deal_id := None; errors := [] |} in
  let failed e (result : opportunity_result) w' :=
    (Ok (append_error (str_exn e) result),
     add_log (ERROR, ("Помилка обробки opportunity: " ++ str_exn e)%string) w') in
  process_gigradar_opportunity rt crm data w
  = match contact_step rt crm data w with
    | (Raise e, w1) => failed e result0 w1
    | (Ok (job, job_id, opportunity_id, contact), w1) =>
        match deal_step rt crm job job_id opportunity_id contact w1 with
        | (Raise e, w2) => failed e (set_contact_id contact result0) w2
        | (Ok deal, w2) =>
            (Ok (set_deal_id deal (set_contact_id contact result0)), w2)
        end
    end.
Proof.
  intros result0 failed.
  unfold process_gigradar_opportunity, try_except, bind, on_exception.
  destruct (contact_step rt crm data w) as [[[[[job job_id] oid] contact]|e] w1];
    [|done].
  by destruct (deal_step rt crm job job_id oid contact w1) as [[deal|e] w2].
Qed.

(** The handler of [process_gigradar_opportunity] catches everything and
    returns, so the function returns whatever its [try] block does. *)
Lemma process_returns data : returns (process_gigradar_opportunity rt crm data).
Proof.
  unfold process_gigradar_opportunity. apply returns_try_except.
  intros e. eexists. split; [reflexivity|].
  apply returns_bind; [apply returns_logger|]. intros _. apply returns_ret.
Qed.

(** C7: [process_gigradar_opportunity] returns a result document on
    every payload and every world, whatever the CRM answers: it never
    raises.  When the contact-then-deal flow raises, the message of the
    exception is the entry of [errors], [success] is false, and the error
    is logged; when the flow completes, [errors] is empty and [deal_id] is
    what the flow returned. *)
Theorem process_never_raises (opportunity_data : value) (w : world) :
  ∃ r w',
    process_gigradar_opportunity rt crm opportunity_data w = (Ok r, w')
    ∧ match opportunity_flow rt crm opportunity_data w with
      | (Raise e, _) =>
          errors r = [str_exn e] ∧ success r = false ∧ deal_id r = None
          ∧ (ERROR, ("Помилка обробки opportunity: " ++ str_exn e)%string)
            ∈ log w'
      | (Ok deal, _) => errors r = [] ∧ deal_id r = deal
      end.
Proof.
  rewrite process_run. unfold opportunity_flow, bind.
  destruct (contact_step rt crm opportunity_data w)
    as [[[[[job job_id] oid] contact]|e] w1].
  - destruct (deal_step rt crm job job_id oid contact w1) as [[deal|e] w2];
      eexists _, _; (split; [reflexivity|]); [done|].
    split_and!; [done..|]. cbn [log add_log]. set_solver.
  - eexists _, _. split; [reflexivity|].
    split_and!; [done..|]. cbn [log add_log]. set_solver.
Qed.





(** Whatever the CRM answers, [create_contact] sends the create request
    first, and raises only what the CRM raised outside the API's
    exception class. *)
Lemma create_contact_trace email firstname lastname phone company kwargs w :
  let properties :=
    contact_properties email firstname lastname phone company kwargs in
  ∃ res w' rest,
    create_contact rt crm email firstname lastname phone company kwargs w
    = (res, w')
    ∧ calls w' = calls w ++ ContactsCreate properties :: rest
    ∧ (∀ e, res = Raise e →
         contacts_basic_api_create crm (calls w) properties = Raise e
         ∧ ∀ st m, e ≠ ContactApiException st m).
Proof.
  intros properties. rewrite create_contact_run. fold properties.
  destruct (contacts_basic_api_create crm (calls w) properties)
    as [id|[| | | |st m| |]];
    try (eexists _, _, []; split_and!; [reflexivity|done|];
         by intros ? [= <-]).
  cbv zeta. destruct (st =? 409)%Z.
  - rewrite find_contact_by_email_run. cbn [calls add_log].
    destruct (contacts_search_api_do_search crm _ email);
      eexists _, _, [_]; (split_and!; [reflexivity| |done]);
      cbn [calls add_call add_log]; by rewrite <- app_assoc.
  - eexists _, _, []. by split_and!.
Qed.

(** [create_deal] sends the create request first. *)
Lemma create_deal_trace dealname amount closedate dealstage pipeline contact
    kwargs w :
  ∃ res w' rest,
    create_deal rt crm dealname amount closedate dealstage pipeline contact
      kwargs w = (res, w')
    ∧ calls w' = calls w
        ++ DealsCreate (deal_properties rt dealname amount closedate dealstage
                          pipeline kwargs) :: rest.
Proof.
  unfold create_deal, try_except, bind, deals_create, logger, ret.
  destruct (deals_basic_api_create crm (calls w) _) as [deal|e].
  - destruct (truthy_str contact).
    + unfold _associate_deal_to_contact, try_except, bind,
        associations_create, logger.
      cbn [calls add_call add_log].
      destruct (associations_batch_api_create crm _ _ _);
        eexists _, _, [_]; (split; [reflexivity|]);
        cbn [calls add_call add_log]; by rewrite <- app_assoc.
    + by eexists _, _, [].
  - destruct e; by eexists _, _, [].
Qed.

(** The deal step on a dictionary: no request unless the description can
    be sliced, and then the deal request. *)
Lemma deal_step_trace (job : dict) job_id opportunity_id contact w :
  ∃ res w' rest,
    deal_step rt crm (VDict job) job_id opportunity_id contact w = (res, w')
    ∧ calls w' = calls w ++ rest
    ∧ ((∃ v, slice_to 500 (get_default job "description" (VStr "")) = Ok v) →
       ∃ properties, DealsCreate properties ∈ rest).
Proof.
  unfold deal_step, getattr_get, lift, bind, ret, attr_get.
  destruct (truthy (get_default job "budget" VNone));
    (destruct (slice_to 500 (get_default job "description" (VStr "")))
       as [v|e] eqn:Hslice;
     [|eexists _, _, []; split_and!;
       [reflexivity|by rewrite app_nil_r|by intros [? [=]]]]);
    match goal with
    | |- context [create_deal rt crm ?a ?b ?c ?d ?e ?f ?g ?w] =>
        destruct (create_deal_trace a b c d e f g w)
          as (res & w' & rest & -> & Hcalls)
    end;
    eexists _, _, _; (split_and!; [reflexivity|exact Hcalls|]);
    intros _; eexists; apply list_elem_of_here.
Qed.


End ServicesFacts.

Section ServicesExamples.
Import Services Doubles.

(** The example of the specification: the first request for "a@b.com"
    creates contact "101"; the same request again meets a conflict and
    returns the existing contact, found by the search. *)
Lemma create_contact_outcomes_witness :
  let create :=
    create_contact test_runtime test_client (VStr "a@b.com")
      VNone VNone VNone VNone ∅ in
  ∃ w1 w2,
    create empty_world = (Ok (Some "101"), w1)
    ∧ create w1 = (Ok (Some "101"), w2)
    ∧ calls w2 = [ContactsCreate {[ "email" := VStr "a@b.com" ]};
                  ContactsCreate {[ "email" := VStr "a@b.com" ]};
                  ContactsSearch (VStr "a@b.com")].
Proof.
  intros create. subst create.
  pose proof (create_contact_outcomes test_runtime test_client (VStr "a@b.com")
                VNone VNone VNone VNone ∅ empty_world) as H1.
  cbv zeta in H1. destruct H1 as (Hnew & _ & _).
  destruct (Hnew "101" eq_refl) as (w1 & Hrun1 & Hcalls1).
  pose proof (create_contact_outcomes test_runtime test_client (VStr "a@b.com")
                VNone VNone VNone VNone ∅ w1) as H2.
  cbv zeta in H2. destruct H2 as (_ & Hconflict & _).
  destruct (Hconflict "Contact already exists")
    as (w2 & rest & Hrun2 & Hcalls2 & _).
  { rewrite Hcalls1. by vm_compute. }
  exists w1, w2. split_and!; [exact Hrun1| |].
  - rewrite Hrun2. cbn [calls add_call]. rewrite Hcalls1. by vm_compute.
  - rewrite Hcalls2, Hcalls1. by vm_compute.
Defined.


Example acme_result :
  ∃ w',
    process_gigradar_opportunity test_runtime test_client (VDict acme_payload)
      empty_world
    = (Ok {| success := true; contact_id := Some "101"; deal_id := Some "201";
             errors := [] |}, w')
    ∧ ∃ deal_properties,
        calls w'
        = [ContactsCreate {[ "company" := VStr "Acme Co";
                             "email" := VStr "acme_co@gigradar.placeholder" ]};
           DealsCreate deal_properties;
           AssociationsCreate "101" "201"].
Proof. eexists. split; [by vm_compute|]. eexists. by vm_compute. Qed.


(** A null job description stops the flow one step later: the placeholder
    contact is requested, but slicing the description raises and no deal
    request is sent. *)
Lemma null_description_skips_deal :
  ∃ r w',
    process_gigradar_opportunity test_runtime test_client
      (VDict null_description_payload) empty_world = (Ok r, w')
    ∧ calls w'
      = [ContactsCreate {[ "company" := VStr "Acme Co";
                           "email" := VStr "acme_co@gigradar.placeholder" ]}]
    ∧ (∀ deal_properties, DealsCreate deal_properties ∉ calls w')
    ∧ success r = false
    ∧ contact_id r = Some "101"
    ∧ deal_id r = None
    ∧ errors r = ["'NoneType' object is not subscriptable"].
Proof.
  eexists _, _. split; [by vm_compute|].
  split_and!; try by vm_compute.
  intros p Hin. vm_compute in Hin.
  apply list_elem_of_singleton in Hin. discriminate Hin.
Qed.

(** Without a company the placeholder is made from "Unknown Company". *)
Example unknown_company_result :
  ∃ r w' rest,
    process_gigradar_opportunity test_runtime test_client (VDict ∅) empty_world
    = (Ok r, w')
    ∧ calls w'
      = ContactsCreate {[ "company" := VStr "Unknown Company";
                          "email" := VStr "unknown_company@gigradar.placeholder" ]}
        :: rest
    ∧ success r = true.
Proof. eexists _, _, _. split; [by vm_compute|]. by vm_compute. Qed.

End ServicesExamples.

(* ===================================================================== *)
(** ** views.py *)
(* ===================================================================== *)

Section ViewsFacts.
Context (rt : runtime) (crm : HubSpot) (env : environ).
Import Services Views.

(** The proposal handler answers 200 whatever happens, with an
    error-shaped body when the upsert raises. *)
Lemma handle_proposal_update_200 data w :
  ∃ response w',
    _handle_proposal_update rt data w = (Ok response, w')
    ∧ status_code response = 200%Z
    ∧ (∀ e w1, Models.create_from_webhook_data rt data w = (Raise e, w1) →
               error_shaped response ∧ db w' = db w1 ∧ calls w' = calls w1).
Proof.
  unfold _handle_proposal_update, try_except, bind.
  destruct (Models.create_from_webhook_data rt data w) as [[p|e] w1].
  - eexists _, _. split_and!; [reflexivity|done|done].
  - destruct (is_ValueError e); eexists _, _;
      (split_and!; [reflexivity|done|]); intros ? ? [= <- <-];
      (split_and!; [|done..]); unfold error_shaped; left; reflexivity.
Qed.

(** The opportunity handler answers 200 whatever happens, with an
    error-shaped body when the CRM client cannot be built and when the
    orchestration reports no success. *)
Lemma handle_opportunity_create_200 data w :
  ∃ response w',
    _handle_opportunity_create rt crm env data w = (Ok response, w')
    ∧ status_code response = 200%Z
    ∧ (truthy_str (HUBSPOT_ACCESS_TOKEN env) = false →
       error_shaped response ∧ db w' = db w ∧ calls w' = calls w)
    ∧ (truthy_str (HUBSPOT_ACCESS_TOKEN env) = true →
       ∀ r w1, process_gigradar_opportunity rt crm data w = (Ok r, w1) →
               success r = false → error_shaped response).
Proof.
  unfold _handle_opportunity_create, try_except, bind, HubSpotService_init.
  cbn [truthy_str]. destruct (truthy_str (HUBSPOT_ACCESS_TOKEN env)).
  - cbn [negb]. unfold ret at 1.
    destruct (process_returns rt crm data w) as (r & w1 & ->).
    destruct (success r) eqn:Hs; eexists _, _;
      (split_and!; [reflexivity|done|done|]);
      intros _ ? ? [= <- <-] Hs'; [congruence|].
    unfold error_shaped. right. split; [reflexivity|]. eexists. reflexivity.
  - cbn [negb]. unfold raise. cbn [is_ValueError].
    eexists _, _. split_and!; [reflexivity|done| |done].
    intros _. (split_and!; [|done..]). unfold error_shaped. left. reflexivity.
Qed.

(** Routing answers 200 or raises. *)
Lemma route_200 payload w :
  match route rt crm env payload w with
  | (Ok response, _) => status_code response = 200%Z
  | (Raise _, w') => db w' = db w ∧ calls w' = calls w
  end.
Proof.
  unfold route, lift, bind.
  destruct payload as [| | | | | |p|]; try done.
  cbn [attr_get].
  set (payload := VDict p).
  generalize (get_default p "event" VNone) (get_default p "type" VNone)
    (get_default p "data" VNone).
  intros ev ty d.
  assert (∀ (event_type : value) w0,
    match
      (logger INFO ("Отримано webhook подію: " ++ str rt event_type) ;;
       if eq_str event_type "GIGRADAR.OPPORTUNITY.CREATE" then
         _handle_opportunity_create rt crm env (if truthy d then d else payload)
       else if eq_str event_type "GIGRADAR.PROPOSAL.UPDATE"
               || eq_str event_type "GIGRADAR.PROPOSAL.CREATE" then
         _handle_proposal_update rt (if truthy d then d else payload)
       else
         logger WARNING ("Невідомий тип події: " ++ str rt event_type) ;;
         ret (json_response
                [("status", VStr "received");
                 ("message", VStr ("Event " ++ str rt event_type
                                   ++ " received but not processed"))] 200)) w0
    with
    | (Ok response, _) => status_code response = 200%Z
    | (Raise _, w') => db w' = db w0 ∧ calls w' = calls w0
    end) as Hrest.
  { intros event_type w0. unfold bind, logger.
    destruct (eq_str event_type "GIGRADAR.OPPORTUNITY.CREATE").
    - match goal with
      | |- context [_handle_opportunity_create rt crm env ?x ?w1] =>
          by destruct (handle_opportunity_create_200 x w1)
            as (? & ? & -> & ? & _)
      end.
    - destruct (eq_str event_type "GIGRADAR.PROPOSAL.UPDATE"
                || eq_str event_type "GIGRADAR.PROPOSAL.CREATE"); [|done].
      match goal with
      | |- context [_handle_proposal_update rt ?x ?w1] =>
          by destruct (handle_proposal_update_200 x w1)
            as (? & ? & -> & ? & _)
      end. }
  destruct (truthy ev); apply Hrest.
Qed.

Lemma token_rejected_mismatch webhook_token :
  token_rejected env webhook_token = token_mismatch env webhook_token.
Proof.
  unfold token_rejected, token_mismatch.
  destruct (WEBHOOK_TOKEN env) as [valid|]; [|done].
  cbn [truthy_str]. f_equal. f_equal.
  destruct (String.eqb_spec webhook_token valid) as [->|Hne].
  - by rewrite bool_decide_eq_true_2.
  - rewrite bool_decide_eq_false_2; [done|]. by intros [= ->].
Qed.

Lemma basic_auth_missing_header request :
  basic_auth_missing env request = basic_header_missing env request.
Proof.
  unfold basic_auth_missing, basic_header_missing, startswith.
  destruct (WEBHOOK_USERNAME env) as [username|]; [|done].
  destruct (WEBHOOK_PASSWORD env) as [password|];
    [|by rewrite andb_false_r].
  cbn [truthy_str]. f_equal.
  by destruct (HTTP_AUTHORIZATION request).
Qed.

(** [post], step by step. *)
Lemma post_run request webhook_token w :
  let caught e w' :=
    (Ok (json_response [("status", VStr "error");
                        ("message", VStr "Internal server error")] 200),
     add_log (ERROR, ("Помилка обробки webhook: " ++ str_exn e)%string) w') in
  post rt crm env request webhook_token w
  = if token_rejected env webhook_token then
      (Ok (json_response [("error", VStr "Invalid webhook token")] 401),
       add_log (WARNING, ("Невірний webhook токен: " ++ webhook_token)%string) w)
    else
      match json_loads rt (body request) with
      | Raise (JSONDecodeError _) =>
          (Ok (json_response [("error", VStr "Invalid JSON format")] 400),
           add_log (ERROR, "Невірний JSON формат в webhook") w)
      | Raise e => caught e w
      | Ok payload =>
          if basic_auth_missing env request then
            (Ok (json_response [("error", VStr "Authentication required")] 401),
             w)
          else
            match route rt crm env payload w with
            | (Ok response, w') => (Ok response, w')
            | (Raise e, w') => caught e w'
            end
      end.
Proof.
  intros caught. unfold post, try_except, bind, lift.
  destruct (token_rejected env webhook_token); [done|].
  destruct (json_loads rt (body request)) as [payload|[]]; try done.
  unfold ret at 1. destruct (basic_auth_missing env request); [done|].
  by destruct (route rt crm env payload w) as [[]].
Qed.

(** C3, as amended: [post] always answers, and its status is 401 when
    the path token is rejected, 400 when the body does not decode as JSON,
    401 when Basic authentication is configured and the request carries no
    Basic header, and 200 in every other case.  The failures met after
    those checks answer 200 with an error-shaped body: any other exception
    of the decoder, a payload that is not an object, an upsert that raises
    (a missing identifier among them), a CRM client that cannot be
    configured, and an orchestration that ends without success. *)
Theorem post_status (request : HttpRequest) (webhook_token : string) (w : world) :
  (∃ response w',
     post rt crm env request webhook_token w = (Ok response, w')
     ∧ status_code response = expected_status rt env request webhook_token
     ∧ (token_mismatch env webhook_token = false →
        ∀ e, json_loads rt (body request) = Raise e →
             (∀ msg, e ≠ JSONDecodeError msg) → error_shaped response)
     ∧ (token_mismatch env webhook_token = false →
        basic_header_missing env request = false →
        ∀ payload, json_loads rt (body request) = Ok payload →
                   (∀ d, payload ≠ VDict d) → error_shaped response))
  ∧ (∀ data, ∃ response w',
       _handle_proposal_update rt data w = (Ok response, w')
       ∧ status_code response = 200%Z
       ∧ (∀ e w1, Models.create_from_webhook_data rt data w = (Raise e, w1) →
                  error_shaped response))
  ∧ (∀ data, ∃ response w',
       _handle_opportunity_create rt crm env data w = (Ok response, w')
       ∧ status_code response = 200%Z
       ∧ (truthy_str (HUBSPOT_ACCESS_TOKEN env) = false →
          error_shaped response)
       ∧ (truthy_str (HUBSPOT_ACCESS_TOKEN env) = true →
          ∀ r w1, process_gigradar_opportunity rt crm data w = (Ok r, w1) →
                  success r = false → error_shaped response)).
Proof.
  split_and!.
  - rewrite post_run. unfold expected_status.
    rewrite token_rejected_mismatch, basic_auth_missing_header.
    destruct (token_mismatch env webhook_token).
    { eexists _, _. by split_and!. }
    destruct (json_loads rt (body request)) as [payload|e].
    2: { destruct e; eexists _, _;
           (split_and!; [reflexivity|done| |done]);
           intros _ e' [= <-] Hne;
           first [by destruct (Hne msg)
                 |unfold error_shaped; left; reflexivity]. }
    destruct (basic_header_missing env request).
    { eexists _, _. by split_and!. }
    pose proof (route_200 payload w) as Hroute.
    destruct (route rt crm env payload w) as [[response|e] w'] eqn:Hr.
    + eexists _, _. split_and!; [reflexivity|done|done|].
      intros _ _ payload' [= <-] Hne.
      destruct payload; try (by destruct (Hne d)); by cbn in Hr.
    + eexists _, _. split_and!; [reflexivity|done|done|].
      intros _ _ _ _ _. unfold error_shaped. left. reflexivity.
  - intros data.
    destruct (handle_proposal_update_200 data w) as (r & w' & ? & ? & Herr).
    exists r, w'. split_and!; [done..|]. intros e w1 He. by apply (Herr e w1).
  - intros data.
    destruct (handle_opportunity_create_200 data w)
      as (r & w' & ? & ? & Herr & Hpartial).
    exists r, w'. split_and!; [done..| |done]. intros He. by apply Herr.
Qed.

(** C8: a token is configured (set and not empty) and the path token
    differs from it.  [post] answers 401 and leaves the table, the trace
    of CRM calls and the clock as they were; its only effect is one
    warning in the log. *)
Theorem invalid_token_rejected
    (request : HttpRequest) (webhook_token valid_token : string) (w : world) :
  WEBHOOK_TOKEN env = Some valid_token →
  valid_token ≠ "" →
  webhook_token ≠ valid_token →
  ∃ response w',
    post rt crm env request webhook_token w = (Ok response, w')
    ∧ status_code response = 401%Z
    ∧ content response !! "error" = Some (VStr "Invalid webhook token")
    ∧ db w' = db w
    ∧ calls w' = calls w
    ∧ clock w' = clock w
    ∧ log w' = log w ++ [(WARNING, ("Невірний webhook токен: "
                                     ++ webhook_token)%string)].
Proof.
  intros Henv Hset Hne. rewrite post_run.
  assert (token_rejected env webhook_token = true) as ->.
  { unfold token_rejected. rewrite Henv.
    apply andb_true_intro. split; [by apply truthy_str_Some|].
    apply negb_true_iff, bool_decide_eq_false. by intros [= ->]. }
  eexists _, _. by split_and!.
Qed.

(** An empty [WEBHOOK_TOKEN] switches the check off, like an unset one. *)
Lemma empty_token_accepts_all webhook_token :
  WEBHOOK_TOKEN env = Some "" ∨ WEBHOOK_TOKEN env = None →
  token_rejected env webhook_token = false.
Proof. unfold token_rejected. by intros [-> | ->]. Qed.

End ViewsFacts.

Section ViewsExamples.
Import Services Views Doubles.

Lemma invalid_token_rejected_witness :
  let request := {| body := "{}"; HTTP_AUTHORIZATION := None |} in
  ∃ response w',
    post test_runtime test_client test_environ request "guess" empty_world
    = (Ok response, w')
    ∧ status_code response = 401%Z
    ∧ content response !! "error" = Some (VStr "Invalid webhook token")
    ∧ db w' = db empty_world
    ∧ calls w' = calls empty_world
    ∧ clock w' = clock empty_world
    ∧ log w' = log empty_world ++ [(WARNING, ("Невірний webhook токен: "
                                              ++ "guess")%string)].
Proof.
  intros request.
  apply (invalid_token_rejected test_runtime test_client test_environ
           request "guess" "secret"); [reflexivity|discriminate..].
Defined.

(** C3 refuted as stated: the path token matches the configured one and
    the body is valid JSON, yet the answer is 401, because Basic
    authentication is configured and the request carries no header. *)
Lemma missing_basic_header_is_401 :
  let request := {| body := "{}"; HTTP_AUTHORIZATION := None |} in
  ∃ response w',
    post test_runtime test_client test_environ request "secret" empty_world
    = (Ok response, w')
    ∧ status_code response = 401%Z
    ∧ status_code response ≠ 200%Z
    ∧ token_mismatch test_environ "secret" = false
    ∧ json_loads test_runtime (body request) = Ok (VDict ∅).
Proof. intros request. eexists _, _. split; [by vm_compute|]. by split_and!. Qed.

End ViewsExamples.

(* ===================================================================== *)
(** ** Which part of the world each function touches *)
(* ===================================================================== *)

Section FrameRules.
Context {A B : Type}.

Lemma keeps_table_ret (a : A) : keeps_table (ret a).
Proof. done. Qed.

Lemma keeps_table_raise e : keeps_table (@raise A e).
Proof. done. Qed.

Lemma keeps_table_lift (r : result A) : keeps_table (lift r).
Proof. done. Qed.

Lemma keeps_table_bind (m : M A) (k : A → M B) :
  keeps_table m → (∀ a, keeps_table (k a)) → keeps_table (bind m k).
Proof.
  intros Hm Hk w. specialize (Hm w). unfold bind.
  destruct (m w) as [[a|e] w1]; [|done].
  destruct (Hk a w1) as [-> ->]. done.
Qed.

Lemma keeps_table_try_except (m : M A) (h : exn → option (M A)) :
  keeps_table m → (∀ e k, h e = Some k → keeps_table k) →
  keeps_table (try_except m h).
Proof.
  intros Hm Hh w. specialize (Hm w). unfold try_except.
  destruct (m w) as [[a|e] w1]; [done|].
  destruct (h e) as [k|] eqn:He; [|done].
  destruct (Hh e k He w1) as [-> ->]. done.
Qed.

Lemma keeps_trace_ret (a : A) : keeps_trace (ret a).
Proof. done. Qed.

Lemma keeps_trace_raise e : keeps_trace (@raise A e).
Proof. done. Qed.

Lemma keeps_trace_bind (m : M A) (k : A → M B) :
  keeps_trace m → (∀ a, keeps_trace (k a)) → keeps_trace (bind m k).
Proof.
  intros Hm Hk w. specialize (Hm w). unfold bind.
  destruct (m w) as [[a|e] w1]; [|done].
  by rewrite (Hk a w1).
Qed.

Lemma keeps_trace_try_except (m : M A) (h : exn → option (M A)) :
  keeps_trace m → (∀ e k, h e = Some k → keeps_trace k) →
  keeps_trace (try_except m h).
Proof.
  intros Hm Hh w. specialize (Hm w). unfold try_except.
  destruct (m w) as [[a|e] w1]; [done|].
  destruct (h e) as [k|] eqn:He; [|done].
  by rewrite (Hh e k He w1).
Qed.

Lemma appends_only_ret (a : A) : appends_only (ret a).
Proof. done. Qed.

Lemma appends_only_raise e : appends_only (@raise A e).
Proof. done. Qed.

Lemma appends_only_lift (r : result A) : appends_only (lift r).
Proof. done. Qed.

Lemma appends_only_bind (m : M A) (k : A → M B) :
  appends_only m → (∀ a, appends_only (k a)) → appends_only (bind m k).
Proof.
  intros Hm Hk w. specialize (Hm w). unfold bind.
  destruct (m w) as [[a|e] w1]; [|done].
  destruct Hm as [? ?], (Hk a w1) as [? ?]. split; by etrans.
Qed.

Lemma appends_only_try_except (m : M A) (h : exn → option (M A)) :
  appends_only m → (∀ e k, h e = Some k → appends_only k) →
  appends_only (try_except m h).
Proof.
  intros Hm Hh w. specialize (Hm w). unfold try_except.
  destruct (m w) as [[a|e] w1]; [done|].
  destruct (h e) as [k|] eqn:He; [|done].
  destruct Hm as [? ?], (Hh e k He w1) as [? ?]. split; by etrans.
Qed.

End FrameRules.

Lemma keeps_table_logger l msg : keeps_table (logger l msg).
Proof. done. Qed.

Lemma keeps_trace_logger l msg : keeps_trace (logger l msg).
Proof. done. Qed.

Lemma appends_only_logger l msg : appends_only (logger l msg).
Proof. intros w. split; [done|]. by apply prefix_app_r. Qed.

Create HintDb frame discriminated.

#[export] Hint Resolve keeps_table_ret keeps_table_raise keeps_table_lift
  keeps_table_logger keeps_trace_ret keeps_trace_raise keeps_trace_logger
  appends_only_ret appends_only_raise appends_only_lift appends_only_logger
  : frame.

(** Takes a computation apart along its binds, handlers and branches, and
    closes the leaves with the rules collected in [frame]. *)
Ltac frame :=
  repeat first
    [ solve [auto with frame]
    | match goal with
      | |- keeps_table (bind _ _) => apply keeps_table_bind; [|intros ?]
      | |- keeps_trace (bind _ _) => apply keeps_trace_bind; [|intros ?]
      | |- appends_only (bind _ _) => apply appends_only_bind; [|intros ?]
      | |- keeps_table (try_except _ _) =>
          apply keeps_table_try_except; [|intros [] ? ?; simplify_eq/=]
      | |- keeps_trace (try_except _ _) =>
          apply keeps_trace_try_except; [|intros [] ? ?; simplify_eq/=]
      | |- appends_only (try_except _ _) =>
          apply appends_only_try_except; [|intros [] ? ?; simplify_eq/=]
      | H : (if ?b then _ else _) = Some _ |- _ => destruct b; simplify_eq/=
      | |- context [if ?b then _ else _] => destruct b
      | |- context [match ?x with _ => _ end] => destruct x
      end ].

Section ServicesFrames.
Context (rt : runtime) (crm : HubSpot).
Import Services.

Lemma keeps_table_contacts_create p : keeps_table (contacts_create crm p).
Proof. done. Qed.
Lemma keeps_table_contacts_do_search e : keeps_table (contacts_do_search crm e).
Proof. done. Qed.
Lemma keeps_table_deals_create p : keeps_table (deals_create crm p).
Proof. done. Qed.
Lemma keeps_table_associations_create c d :
  keeps_table (associations_create crm c d).
Proof. done. Qed.

Lemma appends_only_contacts_create p : appends_only (contacts_create crm p).
Proof. intros w. split; [by apply prefix_app_r|done]. Qed.
Lemma appends_only_contacts_do_search e : appends_only (contacts_do_search crm e).
Proof. intros w. split; [by apply prefix_app_r|done]. Qed.
Lemma appends_only_deals_create p : appends_only (deals_create crm p).
Proof. intros w. split; [by apply prefix_app_r|done]. Qed.
Lemma appends_only_associations_create c d :
  appends_only (associations_create crm c d).
Proof. intros w. split; [by apply prefix_app_r|done]. Qed.

End ServicesFrames.

#[export] Hint Resolve keeps_table_contacts_create keeps_table_contacts_do_search
  keeps_table_deals_create keeps_table_associations_create
  appends_only_contacts_create appends_only_contacts_do_search
  appends_only_deals_create appends_only_associations_create : frame.

Lemma keeps_table_find_contact crm email :
  keeps_table (Services._find_contact_by_email crm email).
Proof. unfold Services._find_contact_by_email. frame. Qed.

Lemma appends_only_find_contact crm email :
  appends_only (Services._find_contact_by_email crm email).
Proof. unfold Services._find_contact_by_email. frame. Qed.

#[export] Hint Resolve keeps_table_find_contact appends_only_find_contact : frame.

Lemma keeps_table_create_contact rt crm email firstname lastname phone company
    kwargs :
  keeps_table
    (Services.create_contact rt crm email firstname lastname phone company kwargs).
Proof. unfold Services.create_contact. frame. Qed.

Lemma appends_only_create_contact rt crm email firstname lastname phone company
    kwargs :
  appends_only
    (Services.create_contact rt crm email firstname lastname phone company kwargs).
Proof. unfold Services.create_contact. frame. Qed.

Lemma keeps_table_associate crm deal contact :
  keeps_table (Services._associate_deal_to_contact crm deal contact).
Proof. unfold Services._associate_deal_to_contact. frame. Qed.

Lemma appends_only_associate crm deal contact :
  appends_only (Services._associate_deal_to_contact crm deal contact).
Proof. unfold Services._associate_deal_to_contact. frame. Qed.

#[export] Hint Resolve keeps_table_create_contact appends_only_create_contact
  keeps_table_associate appends_only_associate : frame.

Lemma keeps_table_create_deal rt crm dealname amount closedate dealstage pipeline
    contact kwargs :
  keeps_table
    (Services.create_deal rt crm dealname amount closedate dealstage pipeline
       contact kwargs).
Proof. unfold Services.create_deal. frame. Qed.

Lemma appends_only_create_deal rt crm dealname amount closedate dealstage pipeline
    contact kwargs :
  appends_only
    (Services.create_deal rt crm dealname amount closedate dealstage pipeline
       contact kwargs).
Proof. unfold Services.create_deal. frame. Qed.

#[export] Hint Resolve keeps_table_create_deal appends_only_create_deal : frame.

Lemma keeps_table_process rt crm data :
  keeps_table (Services.process_gigradar_opportunity rt crm data).
Proof.
  unfold Services.process_gigradar_opportunity, Services.contact_step,
    Services.deal_step, Services.client_or_flat, Services.getattr_get,
    Services.on_exception.
  frame.
Qed.

Lemma appends_only_process rt crm data :
  appends_only (Services.process_gigradar_opportunity rt crm data).
Proof.
  unfold Services.process_gigradar_opportunity, Services.contact_step,
    Services.deal_step, Services.client_or_flat, Services.getattr_get,
    Services.on_exception.
  frame.
Qed.

#[export] Hint Resolve keeps_table_process appends_only_process : frame.

(* ===================================================================== *)
(** ** models.py: further properties of the upsert *)
(* ===================================================================== *)

Section ListFind.
Context {A : Type} (P : A → Prop) `{!∀ x, Decision (P x)}.

(** Replacing an element that does not satisfy [P] by another that does
    not either leaves the first match where it was. *)
Lemma list_find_insert_other (l : list A) i x y :
  l !! i = Some x → ¬ P x → ¬ P y → list_find P (<[i:=y]> l) = list_find P l.
Proof.
  revert i. induction l as [|z l IH]; intros [|i] Hi Hx Hy; simplify_eq/=.
  - by rewrite !decide_False.
  - destruct (decide (P z)); [done|]. by rewrite (IH i).
Qed.

Lemma list_find_snoc_other (l : list A) y :
  ¬ P y → list_find P (l ++ [y]) = list_find P l.
Proof.
  intros Hy. destruct (list_find P l) as [[i x]|] eqn:Hl.
  - by apply list_find_app_l.
  - rewrite list_find_app_r by done. cbn. by rewrite decide_False.
Qed.

End ListFind.

Section UpsertFrame.
Context (rt : runtime).
Import Models.

(** What a delivery with an identifier does to the table. *)
Lemma create_table data w :
  truthy (extract_proposal_id data) = true →
  let key := charfield_text rt (extract_proposal_id data) in
  let r := touch (clock w) (assign_fields rt data (prior_row key w)) in
  let w' := (create_from_webhook_data rt (VDict data) w).2 in
  clock w' = clock w ∧ calls w' = calls w ∧ log w' = log w
  ∧ ((∃ pk p, find_row key w = Some (pk, p) ∧ db w' = <[pk := r]> (db w))
     ∨ (find_row key w = None ∧ db w' = db w ++ [r])).
Proof.
  intros Hid key r w'. subst w' r. unfold prior_row.
  destruct (find_row key w) as [[pk p]|] eqn:Hfind.
  - rewrite (create_on_existing rt data w pk p) by done.
    split_and!; try done. left. by exists pk, p.
  - rewrite (create_on_fresh rt data w) by done.
    split_and!; try done. by right.
Qed.

(** A delivery without an identifier, or of something that is not a
    dictionary, leaves the world as it was. *)
Lemma create_rejected data w :
  (∀ d, data = VDict d → truthy (extract_proposal_id d) = false) →
  (create_from_webhook_data rt data w).2 = w.
Proof.
  intros Hno. destruct data; try done.
  by rewrite create_raises_when_falsy by eauto.
Qed.



(** X2: one delivery, of any payload, writes at most one row.  It sends
    nothing to the CRM, logs nothing and leaves the clock; the table keeps
    every row at its primary key with its identifier and grows by one row
    at most; and the row of every other identifier is what it was. *)
Theorem delivery_touches_one_row (data : value) (w : world) :
  let w' := (create_from_webhook_data rt data w).2 in
  clock w' = clock w ∧ calls w' = calls w ∧ log w' = log w
  ∧ length (db w) ≤ length (db w') ≤ S (length (db w))
  ∧ (∀ i p, db w !! i = Some p →
            ∃ p', db w' !! i = Some p' ∧ proposal_id p' = proposal_id p)
  ∧ (∀ d key', data = VDict d →
               key' ≠ charfield_text rt (extract_proposal_id d) →
               find_row key' w' = find_row key' w).
Proof.
  intros w'. subst w'.
  assert ((∀ d, data = VDict d → truthy (extract_proposal_id d) = false)
          ∨ ∃ d, data = VDict d ∧ truthy (extract_proposal_id d) = true)
    as [Hno|(d & -> & Hid)].
  { destruct data; try by left.
    destruct (truthy (extract_proposal_id d)) eqn:Hid; [right; eauto|].
    left. by intros ? [= <-]. }
  { rewrite (create_rejected data w Hno). split_and!; try done; [lia|eauto]. }
  destruct (create_table d w Hid) as (Hclock & Hcalls & Hlog & Hdb).
  set (key := charfield_text rt (extract_proposal_id d)) in *.
  set (r := touch (clock w) (assign_fields rt d (prior_row key w))) in *.
  split_and!; [done..| | | |].
  - destruct Hdb as [(pk & p & _ & ->)|[_ ->]];
      rewrite ?length_insert, ?length_app; cbn; lia.
  - destruct Hdb as [(pk & p & _ & ->)|[_ ->]];
      rewrite ?length_insert, ?length_app; cbn; lia.
  - intros i p Hi. destruct Hdb as [(pk & p0 & Hfind & ->)|[_ ->]].
    + destruct (decide (i = pk)) as [->|Hne].
      * exists r. rewrite list_lookup_insert_eq by by eapply lookup_lt_Some.
        split; [done|]. unfold r, prior_row. rewrite Hfind.
        apply list_find_Some in Hfind as (Hpk & _). by simplify_eq.
      * exists p. by rewrite list_lookup_insert_ne.
    + exists p. by rewrite lookup_app_l by by eapply lookup_lt_Some.
  - intros d' key' [= <-] Hne. unfold find_row at 1 2.
    destruct Hdb as [(pk & p0 & Hfind & ->)|[Hfind ->]].
    + assert (proposal_id r = key) as Hr.
      { unfold r, prior_row. rewrite Hfind.
        by apply list_find_Some in Hfind as (_ & ? & _). }
      apply list_find_Some in Hfind as (Hpk & Hkey & _).
      apply (list_find_insert_other _ _ pk p0); [done| |].
      * intros Hp. apply Hne. by rewrite <- Hp, Hkey.
      * intros Hp. apply Hne. by rewrite <- Hp, Hr.
    + apply list_find_snoc_other. unfold r, prior_row. rewrite Hfind.
      intros Hp. by apply Hne.
Qed.

(** X3: a delivery of any payload, accepted or not, keeps the identifiers
    of the table pairwise distinct. *)
Theorem delivery_keeps_unique (data : value) (w : world) :
  unique_proposal_id (db w) →
  unique_proposal_id (db (create_from_webhook_data rt data w).2).
Proof.
  intros Huniq.
  assert (set_clock (clock w) w = w) as Hw by by destruct w.
  destruct data; try done.
  destruct (truthy (extract_proposal_id d)) eqn:Hid.
  - pose proof (delivery_unique rt d w (clock w) Hid Huniq) as H.
    unfold deliver in H. by rewrite Hw in H.
  - by rewrite create_raises_when_falsy.
Qed.



End UpsertFrame.

Section UpsertFrameExamples.
Import Models Doubles.


Lemma delivery_keeps_unique_witness :
  unique_proposal_id
    (db (create_from_webhook_data test_runtime (VDict first_payload) two_rows).2).
Proof.
  apply delivery_keeps_unique. unfold unique_proposal_id.
  apply (bool_decide_unpack _). by vm_compute.
Defined.



End UpsertFrameExamples.
(* ===================================================================== *)
(** ** services.py: further properties of the CRM client *)
(* ===================================================================== *)

Section Properties.
Context (rt : runtime).
Import Services.

(** What a contact request holds under each key. *)
Lemma lookup_contact_properties email firstname lastname phone company
    (kwargs : dict) k :
  contact_properties email firstname lastname phone company kwargs !! k
  = match kwargs !! k with
    | Some v => Some v
    | None =>
        if decide (k = "company") then
          if truthy company then Some company else None
        else if decide (k = "phone") then
          if truthy phone then Some phone else None
        else if decide (k = "lastname") then
          if truthy lastname then Some lastname else None
        else if decide (k = "firstname") then
          if truthy firstname then Some firstname else None
        else if decide (k = "email") then Some email
        else None
    end.
Proof.
  unfold contact_properties, set_if. rewrite lookup_union.
  destruct (kwargs !! k) as [v|]; [by destruct (_ !! k)|].
  rewrite (left_id None _).
  repeat case_decide; subst;
    destruct (truthy company), (truthy phone), (truthy lastname),
      (truthy firstname); by simplify_map_eq.
Qed.


End Properties.

Section ClientCalls.
Context (rt : runtime) (crm : HubSpot).
Import Services.


(** X7: [HubSpotService()] is built exactly when a non-empty access token
    is given or configured; the token given takes precedence over the
    environment; otherwise [ValueError] is raised.  Either way the world is
    untouched. *)
Theorem service_needs_token (access_token : option string) (env : environ)
    (w : world) :
  (∀ t, access_token = Some t → t ≠ "" →
        HubSpotService_init access_token env w = (Ok t, w))
  ∧ (truthy_str access_token = false →
     ∀ t, HUBSPOT_ACCESS_TOKEN env = Some t → t ≠ "" →
          HubSpotService_init access_token env w = (Ok t, w))
  ∧ (truthy_str access_token = false →
     truthy_str (HUBSPOT_ACCESS_TOKEN env) = false →
     ∃ msg, HubSpotService_init access_token env w = (Raise (ValueError msg), w)).
Proof.
  unfold HubSpotService_init. split_and!.
  - intros t -> Ht%truthy_str_Some. by rewrite !Ht.
  - intros -> t Henv Ht%truthy_str_Some. rewrite Henv. by rewrite Ht.
  - intros -> ->. by eexists.
Qed.

(** X8: the search by email never raises and sends exactly one search
    request.  It returns the id of the first contact found, and nothing
    when no contact is found or when the search raises, which is logged. *)
Theorem find_contact_never_raises (email : value) (w : world) :
  ∃ found w',
    _find_contact_by_email crm email w = (Ok found, w')
    ∧ calls w' = calls w ++ [ContactsSearch email]
    ∧ db w' = db w
    ∧ match contacts_search_api_do_search crm (calls w) email with
      | Ok results => found = head results ∧ log w' = log w
      | Raise e =>
          found = None
          ∧ log w' = log w ++ [(ERROR, ("Помилка пошуку контакту: "
                                        ++ str_exn e)%string)]
      end.
Proof.
  rewrite find_contact_by_email_run.
  destruct (contacts_search_api_do_search crm (calls w) email);
    eexists _, _; by split_and!.
Qed.

(** [_associate_deal_to_contact], by the answer of the CRM. *)
Lemma associate_run deal contact w :
  _associate_deal_to_contact crm deal contact w
  = let w1 := add_call (AssociationsCreate contact deal) w in
    match associations_batch_api_create crm (calls w) contact deal with
    | Ok _ =>
        (Ok tt, add_log (INFO, ("Deal " ++ deal ++ " асоційовано з контактом "
                                ++ contact)%string) w1)
    | Raise e =>
        (Ok tt, add_log (ERROR, ("Помилка асоціації deal з контактом: "
                                 ++ str_exn e)%string) w1)
    end.
Proof.
  unfold _associate_deal_to_contact, try_except, bind, associations_create,
    logger.
  by destruct (associations_batch_api_create crm (calls w) contact deal).
Qed.

(** X9: the association never raises, whatever the CRM answers: it sends
    one request, from the contact to the deal, and logs its outcome in one
    record. *)
Theorem associate_never_raises (deal contact : string) (w : world) :
  ∃ w' record,
    _associate_deal_to_contact crm deal contact w = (Ok tt, w')
    ∧ calls w' = calls w ++ [AssociationsCreate contact deal]
    ∧ log w' = log w ++ [record]
    ∧ db w' = db w
    ∧ (record.1 = ERROR ↔
       ∃ e, associations_batch_api_create crm (calls w) contact deal = Raise e).
Proof.
  rewrite associate_run. cbv zeta.
  destruct (associations_batch_api_create crm (calls w) contact deal) as [[]|e];
    eexists _, _; (split_and!; [reflexivity|done|reflexivity|done|]); cbn.
  - split; [done|]. by intros [? [=]].
  - split; [by eexists|done].
Qed.

(** [create_deal], by the answer of the CRM. *)
Lemma create_deal_run dealname amount closedate dealstage pipeline contact
    kwargs w :
  let properties :=
    deal_properties rt dealname amount closedate dealstage pipeline kwargs in
  let w1 := add_call (DealsCreate properties) w in
  create_deal rt crm dealname amount closedate dealstage pipeline contact kwargs w
  = match deals_basic_api_create crm (calls w) properties with
    | Ok id =>
        let w2 :=
          add_log (INFO, ("Deal створено в HubSpot: " ++ id ++ ", назва: "
                          ++ str rt dealname)%string) w1 in
        (Ok (Some id),
         if truthy_str contact
         then (_associate_deal_to_contact crm id (default "" contact) w2).2
         else w2)
    | Raise (DealApiException _ msg) =>
        (Ok None,
         add_log (ERROR, ("Помилка створення deal в HubSpot: " ++ msg)%string) w1)
    | Raise e => (Raise e, w1)
    end.
Proof.
  intros properties w1.
  unfold create_deal, try_except, bind, deals_create. fold properties. fold w1.
  destruct (deals_basic_api_create crm (calls w) properties) as [id|[]];
    try done.
  unfold logger at 1. destruct (truthy_str contact); [|done].
  rewrite associate_run. cbv zeta.
  by destruct (associations_batch_api_create crm _ _ _).
Qed.

(** X10: [create_deal] by the answer of the CRM to the deal request.  An
    id: that id is returned, and when a contact id was given one
    association request follows, from that contact to the new deal, whose
    failure changes nothing to the result.  A failure of the deals API:
    nothing is returned, the error is logged, and no association is
    requested.  Any other exception propagates. *)
Theorem create_deal_outcomes
    (dealname amount closedate dealstage pipeline : value)
    (contact : option string) (kwargs : dict) (w : world) :
  let properties :=
    deal_properties rt dealname amount closedate dealstage pipeline kwargs in
  let answer := deals_basic_api_create crm (calls w) properties in
  let run :=
    create_deal rt crm dealname amount closedate dealstage pipeline contact
      kwargs w in
  (∀ id, answer = Ok id →
     ∃ w', run = (Ok (Some id), w')
           ∧ calls w'
             = calls w ++ DealsCreate properties
                 :: match contact with
                    | Some c => if String.eqb c "" then []
                                else [AssociationsCreate c id]
                    | None => []
                    end)
  ∧ (∀ status msg, answer = Raise (DealApiException status msg) →
     ∃ w', run = (Ok None, w')
           ∧ calls w' = calls w ++ [DealsCreate properties]
           ∧ log w' = log w ++ [(ERROR, ("Помилка створення deal в HubSpot: "
                                         ++ msg)%string)])
  ∧ (∀ e, answer = Raise e → (∀ status msg, e ≠ DealApiException status msg) →
     run = (Raise e, add_call (DealsCreate properties) w)).
Proof.
  intros properties answer run. subst run. rewrite create_deal_run.
  fold properties answer. split_and!.
  - intros id ->. cbv zeta. eexists. split; [reflexivity|].
    destruct contact as [c|]; cbn [truthy_str]; [|done].
    destruct (String.eqb c ""); cbn [negb]; [done|].
    change (default "" (Some c)) with c.
    rewrite associate_run. cbv zeta.
    match goal with
    | |- context [associations_batch_api_create crm ?h c id] =>
        destruct (associations_batch_api_create crm h c id)
    end; cbn [snd calls add_log add_call]; by rewrite <- app_assoc.
  - intros st msg ->. by eexists.
  - intros e -> Hne. destruct e as [| | | | |st m|]; try done.
    by destruct (Hne st m).
Qed.

End ClientCalls.

(** Membership of a request in a short, explicit trace. *)
Ltac in_trace :=
  cbn [app]; rewrite ?elem_of_cons, ?elem_of_nil;
  intuition (try discriminate; simplify_eq; auto).

Section Orchestration.
Context (rt : runtime) (crm : HubSpot).
Import Services.

(** The contact step either raises before any request, or comes down to
    one call of [create_contact] on a job that is a dictionary. *)
Lemma contact_step_cases data w :
  (∃ e, contact_step rt crm data w = (Raise e, w))
  ∨ (∃ (job : dict) job_id opportunity_id email firstname company,
       contact_step rt crm data w
       = (let! contact :=
            create_contact rt crm email firstname VNone VNone company ∅ in
          ret (VDict job, job_id, opportunity_id, contact)) w).
Proof.
  unfold contact_step, client_or_flat, getattr_get, lift, bind, ret, attr_get.
  destruct data as [| | | | | |d|]; try (left; by eexists).
  destruct (get_default d "job" (VDict ∅)) as [| | | | | |job|];
    try (left; by eexists).
  destruct (get_default job "client" (VDict ∅)) as [| | | | | |client|];
    try (left; by eexists).
  repeat match goal with
         | |- context [if truthy ?v then _ else _] => destruct (truthy v)
         | |- context [match str_lower ?v with _ => _ end] =>
             destruct (str_lower v)
         end;
    solve [left; by eexists | right; by eexists _, _, _, _, _, _].
Qed.

(** The deal step either raises before any request, or comes down to one
    call of [create_deal] with the fixed stage and pipeline. *)
Lemma deal_step_cases (job : dict) job_id opportunity_id contact w :
  (∃ e, deal_step rt crm (VDict job) job_id opportunity_id contact w
        = (Raise e, w))
  ∨ (∃ dealname amount kwargs,
       deal_step rt crm (VDict job) job_id opportunity_id contact w
       = create_deal rt crm dealname amount VNone (VStr "appointmentscheduled")
           (VStr "default") contact kwargs w).
Proof.
  unfold deal_step, getattr_get, lift, bind, ret, attr_get.
  repeat match goal with
         | |- context [if truthy ?v then _ else _] => destruct (truthy v)
         | |- context [match slice_to ?n ?v with _ => _ end] =>
             destruct (slice_to n v)
         end;
    solve [left; by eexists | right; by eexists _, _, _].
Qed.

(** The requests of [create_contact]: the contact request, and a search
    after it at most. *)
Lemma create_contact_shape email firstname lastname phone company kwargs w :
  ∃ res w' t,
    create_contact rt crm email firstname lastname phone company kwargs w
    = (res, w')
    ∧ calls w'
      = calls w
        ++ ContactsCreate
             (contact_properties email firstname lastname phone company kwargs)
           :: t
    ∧ (t = [] ∨ t = [ContactsSearch email]).
Proof.
  rewrite create_contact_run.
  destruct (contacts_basic_api_create crm (calls w) _) as [id|[| | | |st m| |]];
    try (eexists _, _, []; by split_and!; [reflexivity|..]; auto).
  cbv zeta. destruct (st =? 409)%Z.
  - rewrite find_contact_by_email_run. cbn [calls add_log].
    destruct (contacts_search_api_do_search crm _ email);
      eexists _, _, [_]; (split_and!; [reflexivity| |by right]);
      cbn [calls add_call add_log]; by rewrite <- app_assoc.
  - eexists _, _, []. split_and!; [reflexivity|done|by left].
Qed.

(** The requests of [create_deal]: the deal request, and an association
    after it exactly when a deal id is returned and a contact id was
    given. *)
Lemma create_deal_shape dealname amount closedate dealstage pipeline contact
    kwargs w :
  ∃ res w',
    create_deal rt crm dealname amount closedate dealstage pipeline contact
      kwargs w = (res, w')
    ∧ calls w'
      = calls w
        ++ DealsCreate
             (deal_properties rt dealname amount closedate dealstage pipeline
                kwargs)
           :: match res with
              | Ok (Some deal) =>
                  if truthy_str contact
                  then [AssociationsCreate (default "" contact) deal]
                  else []
              | _ => []
              end.
Proof.
  rewrite create_deal_run.
  destruct (deals_basic_api_create crm (calls w) _) as [id|[]];
    try by eexists _, _.
  cbv zeta. eexists _, _. split; [reflexivity|].
  destruct (truthy_str contact); [|done].
  rewrite associate_run. cbv zeta.
  match goal with
  | |- context [associations_batch_api_create crm ?h ?c id] =>
      destruct (associations_batch_api_create crm h c id)
  end; cbn [snd calls add_log add_call]; by rewrite <- app_assoc.
Qed.

(** All the requests of one opportunity event, and how they relate to the
    result. *)
Lemma process_trace data w :
  ∃ r w' t,
    process_gigradar_opportunity rt crm data w = (Ok r, w')
    ∧ calls w' = calls w ++ t
    ∧ opportunity_trace t = true
    ∧ (∀ c d, AssociationsCreate c d ∈ t
              ↔ contact_id r = Some c ∧ c ≠ "" ∧ deal_id r = Some d).
Proof.
  rewrite process_run.
  destruct (contact_step_cases data w)
    as [[e ->]|(job & jid & oid & email & fn & co & ->)].
  { eexists _, _, []. split_and!; [reflexivity|by rewrite app_nil_r|done|].
    intros c d. split; [by intros ?%elem_of_nil|by intros (? & _)]. }
  unfold bind at 1.
  destruct (create_contact_shape email fn VNone VNone co ∅ w)
    as (res & w1 & t1 & -> & Hc1 & Ht1).
  destruct res as [contact|e]; unfold ret.
  2: { eexists _, _, (_ :: t1).
       split_and!; [reflexivity|exact Hc1|by destruct Ht1 as [-> | ->]|].
       intros c d. split; [|by intros (? & _)].
       destruct Ht1 as [-> | ->]; in_trace. }
  destruct (deal_step_cases job jid oid contact w1)
    as [[e ->]|(dealname & amount & kwargs & ->)].
  { eexists _, _, (_ :: t1).
    split_and!; [reflexivity|exact Hc1|by destruct Ht1 as [-> | ->]|].
    intros c d. split; [|by intros (? & ? & ?)].
    destruct Ht1 as [-> | ->]; in_trace. }
  destruct (create_deal_shape dealname amount VNone (VStr "appointmentscheduled")
              (VStr "default") contact kwargs w1) as (res2 & w2 & -> & Hc2).
  rewrite Hc1, <- app_assoc in Hc2. cbn [app] in Hc2.
  destruct res2 as [[deal|]|e]; eexists _, _, _;
    (split_and!; [reflexivity|exact Hc2|..]).
  - destruct Ht1 as [-> | ->], (truthy_str contact); done.
  - intros c d. cbn [contact_id deal_id set_deal_id set_contact_id].
    destruct contact as [c'|]; cbn [truthy_str default].
    + destruct (String.eqb_spec c' "") as [->|Hne]; cbn [negb].
      * split; [|by intros ([= <-] & ? & _)].
        destruct Ht1 as [-> | ->]; in_trace.
      * split.
        -- destruct Ht1 as [-> | ->]; in_trace.
        -- intros ([= <-] & _ & [= <-]).
           destruct Ht1 as [-> | ->]; in_trace.
    + split; [|by intros ([=] & _)].
      destruct Ht1 as [-> | ->]; in_trace.
  - by destruct Ht1 as [-> | ->].
  - intros c d. split; [|by intros (? & ? & ?)].
    destruct Ht1 as [-> | ->]; in_trace.
  - by destruct Ht1 as [-> | ->].
  - intros c d. split; [|by intros (? & ? & ?)].
    destruct Ht1 as [-> | ->]; in_trace.
Qed.

Lemma opportunity_trace_length t : opportunity_trace t = true → length t ≤ 4.
Proof.
  intros H. do 5 (destruct t as [|[] t]; cbn in *; try done; try lia).
Qed.

(** X11: one opportunity event sends at most four requests to the CRM, in
    this order: a contact request, a search (after a conflict), a deal
    request, an association.  It never sends two contact requests or two
    deal requests, and it leaves the proposal table and the clock alone. *)
Theorem opportunity_sends_at_most_four (opportunity_data : value) (w : world) :
  let w' := (process_gigradar_opportunity rt crm opportunity_data w).2 in
  ∃ t,
    calls w' = calls w ++ t
    ∧ opportunity_trace t = true
    ∧ length t ≤ 4
    ∧ db w' = db w
    ∧ clock w' = clock w.
Proof.
  intros w'. subst w'.
  destruct (keeps_table_process rt crm opportunity_data w) as [Hdb Hclock].
  destruct (process_trace opportunity_data w) as (r & w' & t & Hrun & Hc & Ht & _).
  rewrite Hrun in Hdb, Hclock |- *. exists t.
  split_and!; [done..| |done|done]. by apply opportunity_trace_length.
Qed.

(** X12: an association is requested exactly between the contact and the
    deal that the result reports: the request for contact [c] and deal [d]
    is in the trace if and only if the result holds the non-empty contact
    id [c] and the deal id [d]. *)
Theorem association_links_reported_ids (opportunity_data : value) (w : world) :
  ∃ r w' t,
    process_gigradar_opportunity rt crm opportunity_data w = (Ok r, w')
    ∧ calls w' = calls w ++ t
    ∧ (∀ c d, AssociationsCreate c d ∈ t
              ↔ contact_id r = Some c ∧ c ≠ "" ∧ deal_id r = Some d).
Proof.
  destruct (process_trace opportunity_data w) as (r & w' & t & ? & ? & _ & ?).
  by exists r, w', t.
Qed.

(** Lines 205-217 on a payload whose job and client are dictionaries and
    hold a client email. *)
Lemma contact_step_email (data job client : dict) w :
  get_default data "job" (VDict ∅) = VDict job →
  get_default job "client" (VDict ∅) = VDict client →
  truthy (get client "email" ||| get job "clientEmail") = true →
  contact_step rt crm (VDict data) w
  = (let! contact :=
       create_contact rt crm (get client "email" ||| get job "clientEmail")
         (get client "name" ||| get job "clientName") VNone VNone
         (get client "company" ||| get job "companyName") ∅ in
     ret (VDict job, get_default data "jobId" (VStr ""),
          get_default data "id" (VStr ""), contact)) w.
Proof.
  intros Hjob Hclient Hemail.
  unfold contact_step, client_or_flat, getattr_get, lift, bind, ret, attr_get.
  rewrite Hjob, Hclient.
  change (get_default ?d ?k VNone) with (get d k).
  unfold py_or in *.
  destruct (truthy (get client "email")); rewrite Hemail;
    by destruct (truthy (get client "name")), (truthy (get client "company")).
Qed.

(** X13: with a client email in the payload (the nested one, else the
    flat 'clientEmail'), the first request sent creates a contact with that
    email, the client name as first name and the company, each from the
    nested client document or else from the flat keys of the job, and
    without last name or phone; no placeholder address is made. *)
Theorem client_email_contact (data job client : dict) (w : world) :
  get_default data "job" (VDict ∅) = VDict job →
  get_default job "client" (VDict ∅) = VDict client →
  let email := get client "email" ||| get job "clientEmail" in
  let name := get client "name" ||| get job "clientName" in
  let company := get client "company" ||| get job "companyName" in
  truthy email = true →
  ∃ r w' properties rest,
    process_gigradar_opportunity rt crm (VDict data) w = (Ok r, w')
    ∧ calls w' = calls w ++ ContactsCreate properties :: rest
    ∧ properties !! "email" = Some email
    ∧ properties !! "firstname" = (if truthy name then Some name else None)
    ∧ properties !! "company" = (if truthy company then Some company else None)
    ∧ properties !! "lastname" = None
    ∧ properties !! "phone" = None.
Proof.
  intros Hjob Hclient email name company Hemail.
  rewrite process_run, (contact_step_email data job client w) by done.
  fold email name company. unfold bind at 1.
  destruct (create_contact_trace rt crm email name VNone VNone company ∅ w)
    as (res & w1 & rest1 & -> & Hcalls1 & _).
  assert (∀ k, contact_properties email name VNone VNone company ∅ !! k
               = if decide (k = "company") then
                   if truthy company then Some company else None
                 else if decide (k = "phone") then None
                 else if decide (k = "lastname") then None
                 else if decide (k = "firstname") then
                   if truthy name then Some name else None
                 else if decide (k = "email") then Some email
                 else None) as Hlook.
  { intros k. by rewrite lookup_contact_properties, lookup_empty. }
  destruct res as [contact|e]; unfold ret.
  - destruct (deal_step_trace rt crm job (get_default data "jobId" (VStr ""))
                (get_default data "id" (VStr "")) contact w1)
      as (res2 & w2 & rest2 & -> & Hcalls2 & _).
    destruct res2; eexists _, _, _, (rest1 ++ rest2);
      (split_and!; [reflexivity| |by rewrite Hlook..]);
      cbn [calls add_log]; by rewrite Hcalls2, Hcalls1, <- app_assoc.
  - eexists _, _, _, rest1.
    split_and!; [reflexivity|exact Hcalls1|by rewrite Hlook..].
Qed.






End Orchestration.

Section OrchestrationExamples.
Import Services Doubles.

Lemma client_email_contact_witness :
  let job : dict :=
    {[ "title" := VStr "Fix a bug";
       "description" := VStr "Short text";
       "budget" := VInt 500;
       "clientEmail" := VStr "flat@b.com";
       "client" := VDict {[ "email" := VStr "a@b.com"; "name" := VStr "Ann" ]} ]} in
  ∃ r w' properties rest,
    process_gigradar_opportunity test_runtime test_client (VDict client_payload)
      empty_world = (Ok r, w')
    ∧ calls w' = calls empty_world ++ ContactsCreate properties :: rest
    ∧ properties !! "email" = Some (VStr "a@b.com")
    ∧ properties !! "firstname" = Some (VStr "Ann")
    ∧ properties !! "company" = None
    ∧ properties !! "lastname" = None
    ∧ properties !! "phone" = None.
Proof.
  intros job.
  destruct (client_email_contact test_runtime test_client client_payload job
              {[ "email" := VStr "a@b.com"; "name" := VStr "Ann" ]} empty_world)
    as (r & w' & p & rest & H); [by vm_compute..|].
  exists r, w', p, rest. exact H.
Defined.



(** A failing association changes nothing to the result of the event. *)
Example unlinked_deal_result :
  ∃ w',
    process_gigradar_opportunity test_runtime unlinking_client
      (VDict acme_payload) empty_world
    = (Ok {| success := true; contact_id := Some "101"; deal_id := Some "201";
             errors := [] |}, w')
    ∧ last (calls w') = Some (AssociationsCreate "101" "201")
    ∧ last (log w')
      = Some (ERROR, ("Помилка асоціації deal з контактом: "
                      ++ "association failed")%string).
Proof. eexists. split; [by vm_compute|]. by vm_compute. Qed.

End OrchestrationExamples.
(* ===================================================================== *)
(** ** views.py: what a request does to the table and to the CRM *)
(* ===================================================================== *)

Section Advances.

Lemma advances_refl w : advances w w.
Proof. unfold advances. split_and!; try done; lia. Qed.

Lemma advances_add_log entry w : advances w (add_log entry w).
Proof.
  unfold advances. cbn. split_and!; try done; try lia.
  by apply prefix_app_r.
Qed.

(** Steps that keep the table compose with any step. *)
Lemma advances_framed w w1 w' :
  db w1 = db w → clock w1 = clock w →
  calls w `prefix_of` calls w1 → log w `prefix_of` log w1 →
  advances w1 w' → advances w w'.
Proof.
  unfold advances. intros Hdb Hclock Hcalls Hlog (? & ? & ? & ? & ?).
  rewrite <- Hdb, <- Hclock.
  split_and!; try done; try lia;
    [by etrans; [exact Hcalls|]|by etrans; [exact Hlog|]].
Qed.

Lemma advances_then_framed w w1 w' :
  advances w w1 →
  db w' = db w1 → clock w' = clock w1 →
  calls w1 `prefix_of` calls w' → log w1 `prefix_of` log w' →
  advances w w'.
Proof.
  unfold advances. intros (? & ? & ? & ? & ?) Hdb Hclock Hcalls Hlog.
  rewrite Hdb, Hclock.
  split_and!; try done; try lia;
    [by etrans; [|exact Hcalls]|by etrans; [|exact Hlog]].
Qed.

Lemma advances_computation {A} (m : M A) w :
  keeps_table m → appends_only m → advances w (m w).2.
Proof.
  intros Htable Happ. destruct (Htable w) as [Hdb Hclock].
  destruct (Happ w) as [Hcalls Hlog].
  unfold advances. rewrite Hdb, Hclock. split_and!; try done; lia.
Qed.


Lemma proposal_not_opportunity event_type :
  is_proposal_event event_type = true → is_opportunity_event event_type = false.
Proof.
  unfold is_proposal_event, is_opportunity_event, Views.eq_str.
  destruct event_type as [| | | |s| | |]; try done.
  intros [->%String.eqb_eq| ->%String.eqb_eq]%orb_true_iff; done.
Qed.

End Advances.

Section ViewsFrames.
Context (rt : runtime) (crm : HubSpot) (env : environ).
Import Services Views.

Lemma keeps_table_init token : keeps_table (HubSpotService_init token env).
Proof. unfold HubSpotService_init. frame. Qed.

Lemma keeps_trace_init token : keeps_trace (HubSpotService_init token env).
Proof. unfold HubSpotService_init. frame. Qed.

Lemma appends_only_init token : appends_only (HubSpotService_init token env).
Proof. unfold HubSpotService_init. frame. Qed.

Hint Resolve keeps_table_init keeps_trace_init appends_only_init : frame.

Lemma keeps_table_handle_opportunity data :
  keeps_table (_handle_opportunity_create rt crm env data).
Proof. unfold _handle_opportunity_create. frame. Qed.

Lemma appends_only_handle_opportunity data :
  appends_only (_handle_opportunity_create rt crm env data).
Proof. unfold _handle_opportunity_create. frame. Qed.

(** The upsert, whatever the payload: the trace and the log are left as
    they were, and the table advances. *)
Lemma create_world data w :
  let w' := (Models.create_from_webhook_data rt data w).2 in
  calls w' = calls w ∧ log w' = log w ∧ advances w w'.
Proof.
  intros w'. subst w'.
  assert ((∀ d, data = VDict d → truthy (Models.extract_proposal_id d) = false)
          ∨ ∃ d, data = VDict d ∧ truthy (Models.extract_proposal_id d) = true)
    as [Hno|(d & -> & Hid)].
  { destruct data; try by left.
    destruct (truthy (Models.extract_proposal_id d)) eqn:Hid.
    - right. by eexists.
    - left. by intros ? [= <-]. }
  - rewrite create_rejected by done. split_and!; [done..|apply advances_refl].
  - destruct (create_table rt d w Hid) as (Hclock & Hcalls & Hlog & Hdb).
    split_and!; [done..|]. unfold advances.
    rewrite Hclock, Hcalls, Hlog. split_and!; try done.
    + destruct Hdb as [(pk & p & _ & ->)|[_ ->]].
      * rewrite length_insert. lia.
      * rewrite length_app. cbn. lia.
    + destruct Hdb as [(pk & p & _ & ->)|[_ ->]].
      * rewrite length_insert. lia.
      * rewrite length_app. cbn. lia.
    + intros Huniq.
      assert (set_clock (clock w) w = w) as Hw by by destruct w.
      pose proof (delivery_unique rt d w (clock w) Hid Huniq) as H.
      unfold deliver in H. by rewrite Hw in H.
Qed.

(** The proposal handler adds log lines to the world the upsert leaves. *)
Lemma handle_proposal_world data w :
  let w1 := (Models.create_from_webhook_data rt data w).2 in
  let w' := (_handle_proposal_update rt data w).2 in
  db w' = db w1 ∧ clock w' = clock w1 ∧ calls w' = calls w1
  ∧ log w1 `prefix_of` log w'.
Proof.
  intros w1 w'. subst w1 w'.
  unfold _handle_proposal_update, try_except, bind.
  destruct (Models.create_from_webhook_data rt data w) as [[p|e] w1]; cbn.
  - split_and!; try done. by apply prefix_app_r.
  - destruct (is_ValueError e); cbn; (split_and!; try done);
      by apply prefix_app_r.
Qed.

Lemma keeps_trace_handle_proposal data :
  keeps_trace (_handle_proposal_update rt data).
Proof.
  intros w. destruct (handle_proposal_world data w) as (_ & _ & -> & _).
  by destruct (create_world data w) as (-> & _).
Qed.

Lemma advances_handle_proposal data w :
  advances w (_handle_proposal_update rt data w).2.
Proof.
  destruct (handle_proposal_world data w) as (Hdb & Hclock & Hcalls & Hlog).
  destruct (create_world data w) as (_ & _ & Hadv).
  eapply advances_then_framed; [exact Hadv|done|done| |done].
  by rewrite Hcalls.
Qed.

(** The handlers catch every exception. *)
Lemma handle_proposal_returns data w :
  ∃ response w', _handle_proposal_update rt data w = (Ok response, w').
Proof.
  destruct (handle_proposal_update_200 rt data w) as (r & w' & H & _).
  by exists r, w'.
Qed.

Lemma handle_opportunity_returns data w :
  ∃ response w', _handle_opportunity_create rt crm env data w = (Ok response, w').
Proof.
  destruct (handle_opportunity_create_200 rt crm env data w) as (r & w' & H & _).
  by exists r, w'.
Qed.

(** Lines 75-89 on a decoded object. *)
Lemma route_run (payload : dict) w :
  let event_type := event_type_of payload in
  let w0 :=
    add_log (INFO, ("Отримано webhook подію: " ++ str rt event_type)%string) w in
  route rt crm env (VDict payload) w
  = if is_opportunity_event event_type then
      _handle_opportunity_create rt crm env (event_data_of payload) w0
    else if is_proposal_event event_type then
      _handle_proposal_update rt (event_data_of payload) w0
    else
      (Ok (json_response
             [("status", VStr "received");
              ("message", VStr ("Event " ++ str rt event_type
                                ++ " received but not processed"))] 200),
       add_log (WARNING, ("Невідомий тип події: " ++ str rt event_type)%string)
         w0).
Proof.
  intros event_type w0. subst event_type w0.
  unfold route, lift, bind, attr_get, event_type_of, event_data_of, py_or,
    is_opportunity_event, is_proposal_event.
  change (get_default ?d ?k VNone) with (get d k).
  destruct (truthy (get payload "event")); unfold ret at 1, logger at 1;
    (destruct (eq_str _ "GIGRADAR.OPPORTUNITY.CREATE"); [done|]);
    by destruct (eq_str _ "GIGRADAR.PROPOSAL.UPDATE" || eq_str _ _).
Qed.

(** A decoded value that is not an object has no [get]. *)
Lemma route_non_object payload w :
  (∀ d, payload ≠ VDict d) →
  route rt crm env payload w = (Raise (no_attribute payload "get"), w).
Proof. intros Hne. destruct payload; try done. by destruct (Hne d). Qed.

Lemma route_returns (payload : dict) w :
  ∃ response w', route rt crm env (VDict payload) w = (Ok response, w').
Proof.
  rewrite route_run. cbv zeta. repeat case_match.
  - apply handle_opportunity_returns.
  - apply handle_proposal_returns.
  - by eexists _, _.
Qed.

(** [post] on a request that reaches the routing. *)
Lemma post_routed request webhook_token payload w :
  reaches_routing rt env request webhook_token payload →
  post rt crm env request webhook_token w = route rt crm env (VDict payload) w.
Proof.
  intros (Htoken & Hjson & Hbasic).
  rewrite post_run. cbv zeta.
  rewrite token_rejected_mismatch, Htoken, Hjson.
  rewrite basic_auth_missing_header, Hbasic.
  by destruct (route_returns payload w) as (r & w' & ->).
Qed.

(** A request either stops before the routing, with no more than a log
    line, or reaches it. *)
Lemma post_cases request webhook_token w :
  (∃ payload,
     reaches_routing rt env request webhook_token payload
     ∧ post rt crm env request webhook_token w
       = route rt crm env (VDict payload) w)
  ∨ (∃ response w',
       post rt crm env request webhook_token w = (Ok response, w')
       ∧ db w' = db w ∧ clock w' = clock w ∧ calls w' = calls w
       ∧ log w `prefix_of` log w').
Proof.
  rewrite post_run. cbv zeta.
  rewrite token_rejected_mismatch, basic_auth_missing_header.
  destruct (token_mismatch env webhook_token) eqn:Htoken.
  { right. eexists _, _. split_and!; try done. by apply prefix_app_r. }
  destruct (json_loads rt (body request)) as [payload|e] eqn:Hjson.
  - destruct (basic_header_missing env request) eqn:Hbasic.
    { right. by eexists _, _. }
    destruct payload as [| | | | | |d|];
      try (right; eexists _, _; split_and!; try done; by apply prefix_app_r).
    left. exists d. split; [done|].
    by destruct (route_returns d w) as (r & w' & ->).
  - right. destruct e; eexists _, _; (split_and!; try done);
      by apply prefix_app_r.
Qed.

Lemma advances_route (payload : dict) w :
  advances w (route rt crm env (VDict payload) w).2.
Proof.
  rewrite route_run. cbv zeta.
  match goal with
  | |- context [add_log ?entry w] =>
      apply (advances_framed w (add_log entry w)); try done;
        [by apply prefix_app_r|]
  end.
  repeat case_match.
  - apply advances_computation.
    + apply keeps_table_handle_opportunity.
    + apply appends_only_handle_opportunity.
  - apply advances_handle_proposal.
  - apply advances_add_log.
Qed.

End ViewsFrames.

Section ViewsEffects.
Context (rt : runtime) (crm : HubSpot) (env : environ).
Import Services Views.

(** X16: every request is answered, and whatever it was the world only
    advances: the clock is not moved, requests to the CRM and log lines
    are only added, the table gains at most one row and loses none, and
    [proposal_id] stays unique if it was. *)
Theorem request_advances_world (request : HttpRequest) (webhook_token : string)
    (w : world) :
  ∃ response w',
    post rt crm env request webhook_token w = (Ok response, w')
    ∧ advances w w'.
Proof.
  destruct (post_cases rt crm env request webhook_token w)
    as [(payload & _ & Hpost)|(response & w' & Hpost & Hdb & Hclock & Hcalls & Hlog)].
  - destruct (route_returns rt crm env payload w) as (response & w' & Hroute).
    exists response, w'. split; [by rewrite Hpost|].
    pose proof (advances_route rt crm env payload w) as Hadv.
    by rewrite Hroute in Hadv.
  - exists response, w'. split; [done|].
    apply (advances_then_framed w w w'); [apply advances_refl|done|done| |done].
    by rewrite Hcalls.
Qed.

(** X17: the two kinds of event are kept apart.  A request changes the
    table only if it reaches the routing with a proposal event type, and it
    sends something to the CRM only if it reaches the routing with the
    opportunity event type and an access token is configured. *)
Theorem events_are_separated (request : HttpRequest) (webhook_token : string)
    (w : world) :
  let w' := (post rt crm env request webhook_token w).2 in
  (db w' = db w
   ∨ ∃ payload, reaches_routing rt env request webhook_token payload
                ∧ is_proposal_event (event_type_of payload) = true)
  ∧ (calls w' = calls w
     ∨ ∃ payload, reaches_routing rt env request webhook_token payload
                  ∧ is_opportunity_event (event_type_of payload) = true
                  ∧ truthy_str (HUBSPOT_ACCESS_TOKEN env) = true).
Proof.
  intros w'. subst w'.
  destruct (post_cases rt crm env request webhook_token w)
    as [(payload & Hreach & ->)|(response & w' & -> & Hdb & _ & Hcalls & _)];
    [|by split; left].
  rewrite route_run. cbv zeta.
  destruct (is_opportunity_event (event_type_of payload)) eqn:Hopp.
  - split.
    + left. by destruct (keeps_table_handle_opportunity rt crm env
                           (event_data_of payload) (add_log
        (INFO, ("Отримано webhook подію: " ++ str rt (event_type_of payload))%string)
        w)) as [-> _].
    + destruct (truthy_str (HUBSPOT_ACCESS_TOKEN env)) eqn:Htoken.
      * right. by exists payload.
      * left.
        match goal with
        | |- context [_handle_opportunity_create rt crm env ?d ?w0] =>
            destruct (handle_opportunity_create_200 rt crm env d w0)
              as (r & w' & -> & _ & Hnone & _)
        end.
        cbn [snd]. by destruct (Hnone Htoken) as (_ & _ & ->).
  - destruct (is_proposal_event (event_type_of payload)) eqn:Hprop.
    + split; [right; by exists payload|]. left.
      by rewrite keeps_trace_handle_proposal.
    + by split; left.
Qed.

(** X18: a request that is not answered 200 has changed no row and sent
    nothing to the CRM. *)
Theorem refused_request_has_no_effect (request : HttpRequest)
    (webhook_token : string) (w w' : world) (response : JsonResponse) :
  post rt crm env request webhook_token w = (Ok response, w') →
  status_code response ≠ 200%Z →
  db w' = db w ∧ clock w' = clock w ∧ calls w' = calls w.
Proof.
  intros Hpost Hstatus.
  destruct (post_cases rt crm env request webhook_token w)
    as [(payload & _ & Hroute)|(? & ? & Hstop & ? & ? & ? & _)].
  - pose proof (route_200 rt crm env (VDict payload) w) as H200.
    rewrite <- Hroute, Hpost in H200. done.
  - rewrite Hpost in Hstop. by simplify_eq.
Qed.

(** X19: an event of a type the view does not know, or without a type, is
    acknowledged: the answer is 200 with status "received" and the type in
    the message, nothing is stored and nothing is sent to the CRM; the
    event is logged twice. *)
Theorem unknown_event_acknowledged (request : HttpRequest)
    (webhook_token : string) (payload : dict) (w : world) :
  reaches_routing rt env request webhook_token payload →
  is_opportunity_event (event_type_of payload) = false →
  is_proposal_event (event_type_of payload) = false →
  ∃ w',
    post rt crm env request webhook_token w
    = (Ok (json_response
             [("status", VStr "received");
              ("message", VStr ("Event " ++ str rt (event_type_of payload)
                                ++ " received but not processed"))] 200), w')
    ∧ db w' = db w ∧ clock w' = clock w ∧ calls w' = calls w
    ∧ log w'
      = log w ++ [(INFO, ("Отримано webhook подію: "
                          ++ str rt (event_type_of payload))%string);
                  (WARNING, ("Невідомий тип події: "
                             ++ str rt (event_type_of payload))%string)].
Proof.
  intros Hreach Hopp Hprop.
  rewrite (post_routed rt crm env request webhook_token payload w Hreach).
  rewrite route_run. cbv zeta. rewrite Hopp, Hprop.
  eexists. split_and!; try done. cbn. by rewrite <- app_assoc.
Qed.

(** X20: a body that decodes to something else than an object (a list, a
    number, null) passes the token and header checks and is then answered
    200 with "Internal server error": reading the event type raises, and
    the outer handler catches it.  Nothing is stored or sent. *)
Theorem non_object_payload_answered (request : HttpRequest)
    (webhook_token : string) (payload : value) (w : world) :
  token_mismatch env webhook_token = false →
  json_loads rt (body request) = Ok payload →
  basic_header_missing env request = false →
  (∀ d, payload ≠ VDict d) →
  ∃ w',
    post rt crm env request webhook_token w
    = (Ok (json_response [("status", VStr "error");
                          ("message", VStr "Internal server error")] 200), w')
    ∧ db w' = db w ∧ clock w' = clock w ∧ calls w' = calls w
    ∧ log w'
      = log w ++ [(ERROR, ("Помилка обробки webhook: '" ++ type_name payload
                           ++ "' object has no attribute 'get'")%string)].
Proof.
  intros Htoken Hjson Hbasic Hne.
  rewrite post_run. cbv zeta.
  rewrite token_rejected_mismatch, Htoken, Hjson.
  rewrite basic_auth_missing_header, Hbasic.
  rewrite route_non_object by done.
  by eexists.
Qed.


(** X22: a proposal event that cannot be stored is still answered 200,
    with status "error", and the table is left as it was.  Without an
    identifier the message carries the text of the [ValueError]; a payload
    that is not an object gets the generic message. *)
Theorem unsaved_proposal_answered (request : HttpRequest)
    (webhook_token : string) (payload : dict) (w : world) :
  reaches_routing rt env request webhook_token payload →
  is_proposal_event (event_type_of payload) = true →
  ∃ response w',
    post rt crm env request webhook_token w = (Ok response, w')
    ∧ (∀ data, event_data_of payload = VDict data →
               truthy (Models.extract_proposal_id data) = false →
               response
               = json_response
                   [("status", VStr "error");
                    ("message", VStr ("Failed to save proposal: "
                                      ++ "Proposal ID не знайдено в даних"))] 200
               ∧ db w' = db w ∧ clock w' = clock w ∧ calls w' = calls w)
    ∧ ((∀ data, event_data_of payload ≠ VDict data) →
       response
       = json_response [("status", VStr "error");
                        ("message", VStr "Failed to process proposal")] 200
       ∧ db w' = db w ∧ clock w' = clock w ∧ calls w' = calls w).
Proof.
  intros Hreach Hprop.
  pose proof (proposal_not_opportunity _ Hprop) as Hopp.
  rewrite (post_routed rt crm env request webhook_token payload w Hreach).
  rewrite route_run. cbv zeta. rewrite Hopp, Hprop.
  match goal with
  | |- context [_handle_proposal_update rt ?d ?w0] =>
      destruct (handle_proposal_returns rt d w0) as (response & w' & Hrun)
  end.
  exists response, w'. split; [done|]. split.
  - intros data Hdata Hid. revert Hrun.
    unfold _handle_proposal_update, try_except, bind.
    rewrite Hdata, create_raises_when_falsy by done.
    by intros [= <- <-].
  - intros Hne. revert Hrun.
    unfold _handle_proposal_update, try_except, bind.
    rewrite create_on_non_dict by done.
    by intros [= <- <-].
Qed.

(** X23: an opportunity event on a deployment without a HubSpot access
    token is answered 200 with "HubSpot configuration error"; no request
    is sent to the CRM and no row is touched. *)
Theorem missing_access_token_answered (request : HttpRequest)
    (webhook_token : string) (payload : dict) (w : world) :
  reaches_routing rt env request webhook_token payload →
  is_opportunity_event (event_type_of payload) = true →
  truthy_str (HUBSPOT_ACCESS_TOKEN env) = false →
  ∃ w',
    post rt crm env request webhook_token w
    = (Ok (json_response [("status", VStr "error");
                          ("message", VStr "HubSpot configuration error")] 200),
       w')
    ∧ db w' = db w ∧ clock w' = clock w ∧ calls w' = calls w.
Proof.
  intros Hreach Hopp Htoken.
  rewrite (post_routed rt crm env request webhook_token payload w Hreach).
  rewrite route_run. cbv zeta. rewrite Hopp.
  unfold _handle_opportunity_create, try_except, bind, HubSpotService_init.
  cbn [truthy_str]. rewrite Htoken. cbn [negb]. unfold raise.
  cbn [is_ValueError]. by eexists.
Qed.

(** X24: with an access token, the answer to an opportunity event reports
    what the orchestration returned: status "success" with the contact and
    deal identifiers when it succeeded, status "partial_success" with its
    error list when it did not.  The requests sent to the CRM are those of
    the orchestration, and no row is touched. *)
Theorem opportunity_answer_reports_result (request : HttpRequest)
    (webhook_token : string) (payload : dict) (w : world) :
  reaches_routing rt env request webhook_token payload →
  is_opportunity_event (event_type_of payload) = true →
  truthy_str (HUBSPOT_ACCESS_TOKEN env) = true →
  ∃ result w1 w',
    process_gigradar_opportunity rt crm (event_data_of payload)
      (add_log (INFO, ("Отримано webhook подію: "
                       ++ str rt (event_type_of payload))%string) w)
    = (Ok result, w1)
    ∧ post rt crm env request webhook_token w
      = (Ok (if success result then
               json_response
                 [("status", VStr "success");
                  ("message", VStr "Opportunity processed successfully");
                  ("contact_id", of_option (contact_id result));
                  ("deal_id", of_option (deal_id result))] 200
             else
               json_response
                 [("status", VStr "partial_success");
                  ("message", VStr "Opportunity processed with errors");
                  ("errors", VList (VStr <$> errors result))] 200), w')
    ∧ calls w' = calls w1 ∧ db w' = db w ∧ clock w' = clock w.
Proof.
  intros Hreach Hopp Htoken.
  rewrite (post_routed rt crm env request webhook_token payload w Hreach).
  rewrite route_run. cbv zeta. rewrite Hopp.
  set (w0 := add_log _ w).
  destruct (process_returns rt crm (event_data_of payload) w0)
    as (result & w1 & Hrun).
  destruct (keeps_table_process rt crm (event_data_of payload) w0)
    as [Hdb Hclock].
  rewrite Hrun in Hdb, Hclock. cbn [snd] in Hdb, Hclock.
  exists result, w1.
  unfold _handle_opportunity_create, try_except, bind, HubSpotService_init.
  cbn [truthy_str]. rewrite Htoken. cbn [negb]. unfold ret at 1.
  rewrite Hrun.
  destruct (success result); eexists; (split_and!; [done|reflexivity|done..]).
Qed.

End ViewsEffects.

Section ViewsExamples.
Import Services Views Doubles.

Lemma refused_request_has_no_effect_witness :
  let w' := add_log (WARNING, "Невірний webhook токен: wrong") two_rows in
  db w' = db two_rows ∧ clock w' = clock two_rows ∧ calls w' = calls two_rows.
Proof.
  intros w'.
  apply (refused_request_has_no_effect webhook_runtime test_client crm_environ
           (sent proposal_body) "wrong" two_rows w'
           (json_response [("error", VStr "Invalid webhook token")] 401));
    by vm_compute.
Defined.

Lemma unknown_event_acknowledged_witness :
  ∃ w',
    post webhook_runtime test_client crm_environ (sent "{}") "secret" two_rows
    = (Ok (json_response
             [("status", VStr "received");
              ("message", VStr "Event None received but not processed")] 200),
       w')
    ∧ db w' = db two_rows ∧ clock w' = clock two_rows
    ∧ calls w' = calls two_rows
    ∧ log w' = [(INFO, "Отримано webhook подію: None");
                (WARNING, "Невідомий тип події: None")].
Proof.
  refine (unknown_event_acknowledged webhook_runtime test_client crm_environ
            (sent "{}") "secret" ∅ two_rows _ _ _); by vm_compute.
Defined.

Lemma non_object_payload_answered_witness :
  ∃ w',
    post webhook_runtime test_client crm_environ (sent "[]") "secret" two_rows
    = (Ok (json_response [("status", VStr "error");
                          ("message", VStr "Internal server error")] 200), w')
    ∧ db w' = db two_rows ∧ clock w' = clock two_rows
    ∧ calls w' = calls two_rows
    ∧ log w' = [(ERROR, "Помилка обробки webhook: 'list' object has no attribute 'get'")].
Proof.
  apply (non_object_payload_answered webhook_runtime test_client crm_environ
           (sent "[]") "secret" (VList []) two_rows); by vm_compute.
Defined.


Lemma unsaved_proposal_answered_witness :
  ∃ response w',
    post webhook_runtime test_client open_environ (sent orphan_body) "secret"
      two_rows = (Ok response, w')
    ∧ response
      = json_response
          [("status", VStr "error");
           ("message",
            VStr "Failed to save proposal: Proposal ID не знайдено в даних")] 200
    ∧ db w' = db two_rows.
Proof.
  destruct (unsaved_proposal_answered webhook_runtime test_client open_environ
              (sent orphan_body) "secret" orphan_body_payload two_rows)
    as (response & w' & Hpost & Hmissing & _); [by vm_compute..|].
  exists response, w'. split; [done|].
  destruct (Hmissing orphan_body_payload) as (-> & -> & _); by vm_compute.
Defined.

Lemma missing_access_token_answered_witness :
  ∃ w',
    post webhook_runtime test_client open_environ (sent opportunity_body)
      "secret" two_rows
    = (Ok (json_response [("status", VStr "error");
                          ("message", VStr "HubSpot configuration error")] 200),
       w')
    ∧ db w' = db two_rows ∧ clock w' = clock two_rows
    ∧ calls w' = calls two_rows.
Proof.
  apply (missing_access_token_answered webhook_runtime test_client open_environ
           (sent opportunity_body) "secret" opportunity_body_payload two_rows);
    by vm_compute.
Defined.

Lemma opportunity_answer_reports_result_witness :
  ∃ result w1 w',
    process_gigradar_opportunity webhook_runtime test_client
      (event_data_of opportunity_body_payload)
      (add_log (INFO, "Отримано webhook подію: GIGRADAR.OPPORTUNITY.CREATE")
         two_rows)
    = (Ok result, w1)
    ∧ post webhook_runtime test_client crm_environ (sent opportunity_body)
        "secret" two_rows
      = (Ok (if success result then
               json_response
                 [("status", VStr "success");
                  ("message", VStr "Opportunity processed successfully");
                  ("contact_id", of_option (contact_id result));
                  ("deal_id", of_option (deal_id result))] 200
             else
               json_response
                 [("status", VStr "partial_success");
                  ("message", VStr "Opportunity processed with errors");
                  ("errors", VList (VStr <$> errors result))] 200), w')
    ∧ calls w' = calls w1 ∧ db w' = db two_rows ∧ clock w' = clock two_rows.
Proof.
  apply (opportunity_answer_reports_result webhook_runtime test_client
           crm_environ (sent opportunity_body) "secret"
           opportunity_body_payload two_rows); by vm_compute.
Defined.

End ViewsExamples.
(* ===================================================================== *)
(** ** admin.py *)
(* ===================================================================== *)

Section AdminFacts.
Import Admin.

(** X25: the form of a stored row is read-only throughout: every field of
    every group of [fieldsets] is among the fields [get_readonly_fields]
    returns for an existing row.  The fields declared read-only are
    read-only on the form that adds a row too, [proposal_id] among them. *)
Theorem stored_row_form_is_read_only (p : GigradarProposal)
    (obj : option GigradarProposal) :
  Forall (Forall (λ field, field ∈ get_readonly_fields (Some p))) fieldsets
  ∧ readonly_fields `prefix_of` get_readonly_fields obj
  ∧ "proposal_id" ∈ get_readonly_fields obj.
Proof.
  split_and!.
  - unfold fieldsets, get_readonly_fields, readonly_fields. cbn [app].
    repeat (apply Forall_cons; split); try apply Forall_nil;
      by apply (bool_decide_unpack _).
  - destruct obj; cbn [get_readonly_fields]; [by apply prefix_app_r|done].
  - destruct obj; by apply (bool_decide_unpack _).
Qed.

End AdminFacts.
